(** * Window Positioner: classification, grid planning and batched actions

    A shallow embedding of [window_positioner_v3.py] (class
    [WindowPositioner]) and the properties of its classifier, its grid
    arithmetic and its four batched actions.

    Modelling conventions.
    - Python [int] is [Z]; [//] and [%] are [Z.div] and [Z.modulo], which
      round towards minus infinity and give the remainder the sign of the
      divisor, as Python does.  A zero divisor raises [ZeroDivisionError].
    - Python [str] is [string]; a character is one code point below 256
      (Latin-1).  [str.lower], [str.strip] and the classes [\w], [\d] of
      the [re] module are tabulated on that range.
    - The desktop is an explicit [world]: the windows, the metrics of the
      primary monitor, a fault schedule telling which call of the [keyboard]
      module raises a Python exception, and the trace of the calls that
      were dispatched.
    - A call of [user32] goes through ctypes.  It raises nothing of its
      own: a call that fails returns 0, which the program never looks at.
      What raises is the conversion of an integer argument that no C
      [long] holds; a smaller one is passed as its low 32 bits.  The size
      of a [long] is part of the world: 32 bits on Windows.
    - The actions run in a state-and-exception monad over [world].  The
      [while] loop of [position_windows] takes fuel. *)

From Stdlib Require Import ZArith Ascii String.
From stdpp Require Import base list sorting gmap.

Local Open Scope string_scope.
Local Open Scope list_scope.
Local Open Scope Z_scope.

(** ** Python string primitives *)

Module PyStr.

Definition code (c : ascii) : N := N_of_ascii c.

Definition between (lo hi : N) (c : ascii) : bool :=
  ((lo <=? code c) && (code c <=? hi))%N.

(** [[A-Z]] *)
Definition is_upper_AZ (c : ascii) : bool := between 65 90 c.

(** [\d] *)
Definition is_digit (c : ascii) : bool := between 48 57 c.

(** [\w]: alphanumeric code points and the underscore. *)
Definition is_word (c : ascii) : bool :=
  between 48 57 c || between 65 90 c || (code c =? 95)%N
  || between 97 122 c
  || (code c =? 170)%N || between 178 179 c || (code c =? 181)%N
  || between 185 186 c || between 188 190 c
  || between 192 214 c || between 216 246 c || between 248 255 c.

(** [str.isspace] on one character. *)
Definition is_space (c : ascii) : bool :=
  between 9 13 c || between 28 32 c
  || (code c =? 133)%N || (code c =? 160)%N.

Definition lower_char (c : ascii) : ascii :=
  if between 65 90 c || (between 192 222 c && negb (code c =? 215)%N)
  then ascii_of_N (code c + 32)
  else c.

(** [s.lower()] *)
Fixpoint lower (s : string) : string :=
  match s with
  | EmptyString => EmptyString
  | String c s' => String (lower_char c) (lower s')
  end.

(** [s.startswith(p)] *)
Definition startswith (s p : string) : bool := String.prefix p s.

(** [needle in hay] *)
Fixpoint contains (hay needle : string) : bool :=
  String.prefix needle hay
  || match hay with
     | EmptyString => false
     | String _ hay' => contains hay' needle
     end.

Fixpoint lstrip (s : string) : string :=
  match s with
  | EmptyString => EmptyString
  | String c s' => if is_space c then lstrip s' else s
  end.

Fixpoint rstrip (s : string) : string :=
  match s with
  | EmptyString => EmptyString
  | String c s' =>
      match rstrip s' with
      | EmptyString => if is_space c then EmptyString else String c EmptyString
      | r => String c r
      end
  end.

(** [s.strip()] *)
Definition strip (s : string) : string := rstrip (lstrip s).

(** Truth value of a string: [not s] is [negb (truthy s)]. *)
Definition truthy (s : string) : bool :=
  match s with EmptyString => false | _ => true end.

(** Every character is white space (true of the empty string too). *)
Fixpoint all_space (s : string) : bool :=
  match s with
  | EmptyString => true
  | String c s' => is_space c && all_space s'
  end.

End PyStr.

(** ** The fragment of [re] used by [PROFILE_PATTERNS] *)

Module Re.

Inductive item :=
| Boundary                                   (* \b *)
| Times (n : nat) (p : ascii -> bool)        (* [..]{n} *)
| Many1 (p : ascii -> bool).                 (* [..]+ *)

Definition is_word_opt (c : option ascii) : bool :=
  match c with Some c => PyStr.is_word c | None => false end.

Definition next_char (s : string) : option ascii :=
  match s with EmptyString => None | String c _ => Some c end.

(** [\b]: exactly one of the two neighbours is a word character; the
    outside of the string counts as a non-word character. *)
Definition at_boundary (prev : option ascii) (s : string) : bool :=
  xorb (is_word_opt prev) (is_word_opt (next_char s)).

(** Backtracking match of the sequence [items] at the start of [s], the
    character before [s] being [prev]. *)
Fixpoint match_here (items : list item) (prev : option ascii) (s : string)
  {struct items} : bool :=
  match items with
  | [] => true
  | Boundary :: rest => at_boundary prev s && match_here rest prev s
  | Times n p :: rest =>
      (fix times (n : nat) (prev : option ascii) (s : string) : bool :=
         match n with
         | O => match_here rest prev s
         | S n' =>
             match s with
             | EmptyString => false
             | String c s' => p c && times n' (Some c) s'
             end
         end) n prev s
  | Many1 p :: rest =>
      (fix many (prev : option ascii) (s : string) : bool :=
         match s with
         | EmptyString => false
         | String c s' =>
             p c && (many (Some c) s' || match_here rest (Some c) s')
         end) prev s
  end.

Fixpoint search_from (items : list item) (prev : option ascii) (s : string)
  : bool :=
  match_here items prev s
  || match s with
     | EmptyString => false
     | String c s' => search_from items (Some c) s'
     end.

(** Truth value of [re.search(pattern, s)]. *)
Definition search (items : list item) (s : string) : bool :=
  search_from items None s.

End Re.

(** ** Module constants *)

Definition SW_RESTORE : Z := 9.
Definition SWP_NOZORDER : Z := 4.

Definition PROFILE_INDICATORS : list string := ["whoerip"; "whoer"; "mimic"].
Definition EXCLUDE_INDICATORS : list string :=
  ["multilogin x app"; "multilogin app"].

(** [r'\b[A-Z]{2}\d+\b'] *)
Definition PROFILE_PATTERNS : list (list Re.item) :=
  [[Re.Boundary; Re.Times 2 PyStr.is_upper_AZ; Re.Many1 PyStr.is_digit;
    Re.Boundary]].

(** ** The desktop *)

Record RECT := mkRECT { left : Z; top : Z; right : Z; bottom : Z }.

(** One top-level window as the Win32 calls of the program see it. *)
Record window := mkWindow {
  w_visible : bool;              (* IsWindowVisible *)
  w_title : string;              (* GetWindowTextW *)
  w_class : string;              (* GetClassNameW *)
  w_creation : option (Z * Z);   (* creation FILETIME (high, low) of the owning
                                    process; None when OpenProcess or
                                    GetProcessTimes fails *)
  w_rect : RECT;                 (* GetWindowRect *)
  w_restore : option RECT        (* Some r: minimized, SW_RESTORE puts it at r *)
}.

(** The foreign calls the actions dispatch: user32 through ctypes and the
    [keyboard] module. *)
Inductive call :=
| ShowWindow (hwnd cmd : Z)
| SetForegroundWindow (hwnd : Z)
| GetWindowRect (hwnd : Z)
| SetWindowPos (hwnd x y cx cy flags : Z)
| press_and_release (keys : string)
| write (text : string).

Inductive event :=
| Called (c : call)
| Slept (ms : Z)                 (* time.sleep, in milliseconds *)
| Printed (msg : string).        (* print *)

Record world := mkWorld {
  z_order : list Z;              (* the handles EnumWindows passes, in order *)
  desktop : gmap Z window;
  screen_w : Z;                  (* GetSystemMetrics(SM_CXSCREEN) *)
  screen_h : Z;                  (* GetSystemMetrics(SM_CYSCREEN) *)
  work_rect : RECT;              (* SystemParametersInfoW(SPI_GETWORKAREA) *)
  long64 : bool;                 (* a C long has 64 bits; false on Windows,
                                    where it has 32 *)
  faults : nat -> option string; (* the k-th foreign call raises this, when
                                    it is a call of the keyboard module *)
  clock : nat;                   (* foreign calls made so far *)
  trace : list event             (* what was dispatched, oldest first *)
}.

Definition restore_window (w : window) : window :=
  match w_restore w with
  | Some r => mkWindow (w_visible w) (w_title w) (w_class w) (w_creation w) r None
  | None => w
  end.

Definition place_window (x y cx cy : Z) (w : window) : window :=
  mkWindow (w_visible w) (w_title w) (w_class w) (w_creation w)
           (mkRECT x y (x + cx) (y + cy)) (w_restore w).

(** What a call that went through does to the windows. *)
Definition effect (c : call) (d : gmap Z window) : gmap Z window :=
  match c with
  | ShowWindow hwnd cmd =>
      if cmd =? SW_RESTORE then alter restore_window hwnd d else d
  | SetWindowPos hwnd x y cx cy _ => alter (place_window x y cx cy) hwnd d
  | _ => d
  end.

Definition with_desktop (d : gmap Z window) (s : world) : world :=
  mkWorld (z_order s) d (screen_w s) (screen_h s) (work_rect s)
          (long64 s) (faults s) (clock s) (trace s).

Definition tick (s : world) : world :=
  mkWorld (z_order s) (desktop s) (screen_w s) (screen_h s) (work_rect s)
          (long64 s) (faults s) (S (clock s)) (trace s).

Definition record (e : event) (s : world) : world :=
  mkWorld (z_order s) (desktop s) (screen_w s) (screen_h s) (work_rect s)
          (long64 s) (faults s) (clock s) (trace s ++ [e]).

(** ** State and exceptions *)

Inductive outcome (A : Type) :=
| Ok (a : A)
| Raise (e : string).
Arguments Ok {A} a.
Arguments Raise {A} e.

Definition M (A : Type) : Type := world -> outcome A * world.

Definition ret {A} (a : A) : M A := fun s => (Ok a, s).

Definition bind {A B} (m : M A) (k : A -> M B) : M B :=
  fun s => match m s with
           | (Ok a, s') => k a s'
           | (Raise e, s') => (Raise e, s')
           end.

Notation "'let*' x := m 'in' k" := (bind m (fun x => k))
  (at level 10, x pattern, m at level 100, k at level 200).
Notation "m ;; k" := (bind m (fun _ => k))
  (at level 100, k at level 200, right associativity).

(** [try: body except Exception as e: handler(e)] *)
Definition try_except (body : M unit) (handler : string -> M unit) : M unit :=
  fun s => match body s with
           | (Ok _, s') => (Ok tt, s')
           | (Raise e, s') => handler e s'
           end.

(** [for x in l: f(x)] *)
Fixpoint for_each {A} (f : A -> M unit) (l : list A) : M unit :=
  match l with
  | [] => ret tt
  | x :: l' => f x ;; for_each f l'
  end.

(** [for _ in range(n): m] *)
Fixpoint repeat_n (n : nat) (m : M unit) : M unit :=
  match n with
  | O => ret tt
  | S n' => m ;; repeat_n n' m
  end.

(** ** Integers handed to user32

    [user32] is [ctypes.windll.user32] and the program declares no
    [argtypes], so ctypes passes a Python [int] as a C [int]: it takes the
    value as an [unsigned long] or, failing that, as a [long], raises
    [ArgumentError] when neither holds it, and passes the low 32 bits read
    as a signed number.  The two long types have 32 bits on Windows and 64
    bits where the C data model is LP64; the world says which. *)

(** The integers that are passed unchanged, whatever the data model. *)
Definition fits_int (n : Z) : Prop := -2147483648 <= n < 2147483648.

(** The low 32 bits, read as a signed number. *)
Definition wrap_int (n : Z) : Z :=
  (n + 2147483648) mod 4294967296 - 2147483648.

(** The integers that are converted at all: from the least [long] to the
    greatest [unsigned long]. *)
Definition convertible (long64 : bool) (n : Z) : bool :=
  if long64
  then (-9223372036854775808 <=? n) && (n <=? 18446744073709551615)
  else (-2147483648 <=? n) && (n <=? 4294967295).

(** The conversion of the argument at [position] (counted from 1). *)
Definition c_int (long64 : bool) (position : string) (n : Z) : outcome Z :=
  if convertible long64 n then Ok (wrap_int n)
  else Raise ("argument " ++ position
              ++ ": OverflowError: int too long to convert")%string.

(** The call as the C function receives it.  [SetWindowPos(hwnd, None, x,
    y, cx, cy, flags)] has its four integers at positions 3 to 6; they are
    converted in that order.  The constants [SW_RESTORE] and
    [SWP_NOZORDER] are passed as they are, and so are the window handles,
    which Windows keeps small. *)
Definition marshal (long64 : bool) (c : call) : outcome call :=
  match c with
  | SetWindowPos hwnd x y cx cy flags =>
      match c_int long64 "3" x with
      | Raise e => Raise e
      | Ok x' =>
          match c_int long64 "4" y with
          | Raise e => Raise e
          | Ok y' =>
              match c_int long64 "5" cx with
              | Raise e => Raise e
              | Ok cx' =>
                  match c_int long64 "6" cy with
                  | Raise e => Raise e
                  | Ok cy' => Ok (SetWindowPos hwnd x' y' cx' cy' flags)
                  end
              end
          end
      end
  | _ => Ok c
  end.

(** The calls of the [keyboard] module. *)
Definition from_keyboard (c : call) : bool :=
  match c with
  | press_and_release _ | write _ => true
  | _ => false
  end.

(** A foreign call.  Its arguments are converted first, which may raise.
    A call of the [keyboard] module raises when the fault schedule says
    so.  Otherwise the call is dispatched: it is recorded as the callee
    receives it and takes effect. *)
Definition foreign (c : call) : M unit :=
  fun s =>
    match marshal (long64 s) c with
    | Raise e => (Raise e, tick s)
    | Ok c' =>
        match (if from_keyboard c then faults s (clock s) else None) with
        | Some e => (Raise e, tick s)
        | None =>
            (Ok tt, with_desktop (effect c' (desktop s))
                                 (record (Called c') (tick s)))
        end
    end.

Definition sleep (ms : Z) : M unit := fun s => (Ok tt, record (Slept ms) s).
Definition print (msg : string) : M unit := fun s => (Ok tt, record (Printed msg) s).

(** ** Metadata readers *)

Definition IsWindowVisible (s : world) (hwnd : Z) : bool :=
  match desktop s !! hwnd with Some w => w_visible w | None => false end.

Definition get_window_title (s : world) (hwnd : Z) : string :=
  match desktop s !! hwnd with Some w => w_title w | None => "" end.

Definition get_window_class (s : world) (hwnd : Z) : string :=
  match desktop s !! hwnd with Some w => w_class w | None => "" end.

Definition get_process_creation_time (s : world) (hwnd : Z) : Z :=
  match desktop s !! hwnd with
  | Some w =>
      match w_creation w with
      | Some (high, low) => Z.lor (Z.shiftl high 32) low
      | None => 0
      end
  | None => 0
  end.

Definition current_rect (s : world) (hwnd : Z) : RECT :=
  match desktop s !! hwnd with
  | Some w => w_rect w
  | None => mkRECT 0 0 0 0
  end.

Definition get_work_area (s : world) : Z * Z :=
  let rect := work_rect s in
  (Z.min (right rect - left rect) (screen_w s),
   Z.min (bottom rect - top rect) (screen_h s)).

(** ** Classifier *)

Definition is_profile_window (s : world) (hwnd : Z) : bool :=
  if negb (IsWindowVisible s hwnd) then false else
  let title := get_window_title s hwnd in
  let title_lower := PyStr.lower title in
  let class_name := PyStr.lower (get_window_class s hwnd) in
  if negb (PyStr.truthy title) then false else
  if existsb (fun exclude => PyStr.contains title_lower exclude)
             EXCLUDE_INDICATORS then false else
  if existsb (fun indicator => PyStr.contains title_lower indicator)
             PROFILE_INDICATORS then true else
  if existsb (fun pattern =>
                Re.search pattern title
                && PyStr.contains class_name "chrome_widgetwin")
             PROFILE_PATTERNS then true else
  false.

(** ** Profile set builder *)

(** [list.sort(key=...)]: a stable sort, here by insertion. *)
Fixpoint insert_by {A} (key : A -> Z) (x : A) (l : list A) : list A :=
  match l with
  | [] => [x]
  | y :: l' => if key x <=? key y then x :: l else y :: insert_by key x l'
  end.

Definition sort_by {A} (key : A -> Z) (l : list A) : list A :=
  foldr (insert_by key) [] l.

(** The list [windows] of [get_profile_windows] after [windows.sort]. *)
Definition profile_records (s : world) : list (Z * string * Z) :=
  sort_by (fun x => x.2)
    (map (fun hwnd => (hwnd, get_window_title s hwnd,
                       get_process_creation_time s hwnd))
         (filter (fun hwnd => is_profile_window s hwnd = true) (z_order s))).

Definition get_profile_windows (s : world) : list (Z * string) :=
  map (fun x => (x.1.1, x.1.2)) (profile_records s).

(** ** Settings *)

Record settings := mkSettings {
  grid_cols : Z;
  grid_rows : Z;
  h_gap : Z;
  v_gap : Z;
  zoom_level : Z;
  window_width : Z;
  window_height : Z
}.

Definition DEFAULT_SETTINGS : settings := mkSettings 0 0 10 10 35 550 600.

(** ** Grid arithmetic of [position_windows] *)

(** [a // b] *)
Definition floordiv (a b : Z) : outcome Z :=
  if b =? 0 then Raise "integer division or modulo by zero" else Ok (a / b).

(** [if n == 0: n = max(1, area // pitch)] *)
Definition auto_size (n area pitch : Z) : outcome Z :=
  if n =? 0 then
    match floordiv area pitch with
    | Ok q => Ok (Z.max 1 q)
    | Raise e => Raise e
    end
  else Ok n.

(** [while cols * rows < num_windows: cols += 1]; [None] when the fuel runs
    out before the loop leaves. *)
Fixpoint grow_cols (fuel : nat) (cols rows num_windows : Z) : option Z :=
  if cols * rows <? num_windows then
    match fuel with
    | O => None
    | S fuel' => grow_cols fuel' (cols + 1) rows num_windows
    end
  else Some cols.

(** The rectangle of window [i]: [(x, y, win_w, win_h)]. *)
Definition cell (cfg : settings) (cols i : Z) : Z * Z * Z * Z :=
  let win_w := window_width cfg in
  let win_h := window_height cfg in
  let col := i mod cols in
  let row := i / cols in
  let x := col * (win_w + h_gap cfg) in
  let y := row * (win_h + v_gap cfg) in
  (x, y, win_w, win_h).

Record grid := mkGrid {
  columns : Z;
  rows : Z;
  cells : list (Z * Z * Z * Z)
}.

(** Indices [start, start + 1, ...] paired with the elements, as
    [enumerate] yields them. *)
Fixpoint enumerate {A} (start : Z) (l : list A) : list (Z * A) :=
  match l with
  | [] => []
  | x :: l' => (start, x) :: enumerate (start + 1) l'
  end.

(** The grid [position_windows] computes for [num_windows] windows
    (lines 197 to 226), apart from the calls it then dispatches. *)
Definition plan_grid (fuel : nat) (num_windows work_w work_h : Z)
  (cfg : settings) : option (outcome grid) :=
  match auto_size (grid_cols cfg) work_w (window_width cfg + h_gap cfg) with
  | Raise e => Some (Raise e)
  | Ok cols =>
      match auto_size (grid_rows cfg) work_h (window_height cfg + v_gap cfg) with
      | Raise e => Some (Raise e)
      | Ok rows =>
          match grow_cols fuel cols rows num_windows with
          | None => None
          | Some cols =>
              Some (Ok (mkGrid cols rows
                          (map (fun i => cell cfg cols i)
                               (seqZ 0 num_windows))))
          end
      end
  end.

(** ** The four batched actions *)

Definition null {A} (l : list A) : bool :=
  match l with [] => true | _ => false end.

Definition len {A} (l : list A) : Z := Z.of_nat (length l).

(** Body of the [for] loop of [position_windows]. *)
Definition position_window (cfg : settings) (cols : Z)
  (iw : Z * (Z * string)) : M unit :=
  let '(i, (hwnd, title)) := iw in
  let '(x, y, win_w, win_h) := cell cfg cols i in
  foreign (ShowWindow hwnd SW_RESTORE) ;;
  sleep 30 ;;
  foreign (SetWindowPos hwnd x y win_w win_h SWP_NOZORDER).

Definition position_windows (fuel : nat) (cfg : settings) (s : world)
  : option (outcome Z * world) :=
  let windows := get_profile_windows s in
  if null windows then Some (Ok 0, s) else
  let '(work_w, work_h) := get_work_area s in
  let num_windows := len windows in
  match plan_grid fuel num_windows work_w work_h cfg with
  | None => None
  | Some (Raise e) => Some (Raise e, s)
  | Some (Ok g) =>
      Some ((for_each (position_window cfg (columns g)) (enumerate 0 windows) ;;
             ret num_windows) s)
  end.

(** The dict [zoom_steps], in insertion order. *)
Definition zoom_steps : list (Z * nat) :=
  [(100, 0%nat); (90, 1%nat); (80, 2%nat); (75, 3%nat); (67, 4%nat);
   (50, 5%nat); (33, 6%nat); (25, 7%nat); (35, 6%nat)].

(** [min(l, key=key)] continued from the best element so far: a later
    element wins only with a strictly smaller key. *)
Fixpoint min_from (key : Z -> Z) (best : Z) (l : list Z) : Z :=
  match l with
  | [] => best
  | x :: l' => min_from key (if key x <? key best then x else best) l'
  end.

Definition py_min (key : Z -> Z) (l : list Z) : outcome Z :=
  match l with
  | [] => Raise "min() arg is an empty sequence"
  | x :: l' => Ok (min_from key x l')
  end.

(** [d[k]] *)
Fixpoint dict_get {V} (d : list (Z * V)) (k : Z) : outcome V :=
  match d with
  | [] => Raise "KeyError"
  | (k', v) :: d' => if k' =? k then Ok v else dict_get d' k
  end.

(** [closest], then [steps = zoom_steps[closest]]. *)
Definition closest_zoom (zoom_percent : Z) : outcome Z :=
  py_min (fun x => Z.abs (x - zoom_percent)) (map fst zoom_steps).

Definition steps_for (zoom_percent : Z) : outcome nat :=
  match closest_zoom zoom_percent with
  | Ok closest => dict_get zoom_steps closest
  | Raise e => Raise e
  end.

Definition lift {A} (o : outcome A) : M A := fun s => (o, s).

(** Body of the [try] of [apply_zoom_to_all]. *)
Definition zoom_window (steps : nat) (hwnd : Z) : M unit :=
  foreign (ShowWindow hwnd SW_RESTORE) ;;
  foreign (SetForegroundWindow hwnd) ;;
  sleep 150 ;;
  foreign (press_and_release "ctrl+0") ;;
  sleep 80 ;;
  repeat_n steps (foreign (press_and_release "ctrl+-") ;; sleep 80).

Definition apply_zoom_to_all (zoom_percent : Z) : M Z :=
  fun s =>
  let windows := get_profile_windows s in
  if null windows then (Ok 0, s) else
  (let* steps := lift (steps_for zoom_percent) in
   for_each (fun '(hwnd, title) =>
               try_except (zoom_window steps hwnd)
                 (fun e => print ("Error zooming " ++ title ++ ": " ++ e)%string))
            windows ;;
   ret (len windows)) s.

(** Body of the [try] of [resize_all_windows]. *)
Definition resize_window (width height hwnd : Z) : M unit :=
  foreign (ShowWindow hwnd SW_RESTORE) ;;
  sleep 50 ;;
  foreign (GetWindowRect hwnd) ;;
  fun s =>
    let rect := current_rect s hwnd in
    let x := left rect in
    let y := top rect in
    foreign (SetWindowPos hwnd x y width height SWP_NOZORDER) s.

Definition resize_all_windows (width height : Z) : M Z :=
  fun s =>
  let windows := get_profile_windows s in
  if null windows then (Ok 0, s) else
  (for_each (fun '(hwnd, title) =>
               try_except (resize_window width height hwnd)
                 (fun e => print ("Error resizing " ++ title ++ ": " ++ e)%string))
            windows ;;
   ret (len windows)) s.

(** Body of the [try] of [open_url_in_all]. *)
Definition open_url_window (url : string) (hwnd : Z) : M unit :=
  foreign (ShowWindow hwnd SW_RESTORE) ;;
  foreign (SetForegroundWindow hwnd) ;;
  sleep 150 ;;
  foreign (press_and_release "ctrl+t") ;;
  sleep 300 ;;
  foreign (write url) ;;
  sleep 150 ;;
  foreign (press_and_release "enter") ;;
  sleep 200.

(** [url.strip()], with [https://] in front when no protocol is given. *)
Definition normalize_url (url : string) : string :=
  let url := PyStr.strip url in
  if negb (PyStr.startswith url "http://")
     && negb (PyStr.startswith url "https://")
  then ("https://" ++ url)%string
  else url.

Definition open_url_in_all (url : string) (apply_zoom_after : bool)
  (zoom_percent : Z) : M Z :=
  fun s =>
  let windows := get_profile_windows s in
  if null windows then (Ok 0, s) else
  if negb (PyStr.truthy url) || negb (PyStr.truthy (PyStr.strip url))
  then (Ok 0, s) else
  let url := normalize_url url in
  (for_each (fun '(hwnd, title) =>
               try_except (open_url_window url hwnd)
                 (fun e => print ("Error opening URL in " ++ title ++ ": " ++ e)%string))
            windows ;;
   (if apply_zoom_after
    then sleep 2000 ;; apply_zoom_to_all zoom_percent ;; ret tt
    else ret tt) ;;
   ret (len windows)) s.

(** ** Notions the properties are stated with *)

(** Two cells [(x, y, w, h)] share a point of the screen. *)
Definition overlap (a b : Z * Z * Z * Z) : bool :=
  let '(ax, ay, aw, ah) := a in
  let '(bx, by_, bw, bh) := b in
  (ax <? bx + bw) && (bx <? ax + aw) && (ay <? by_ + bh) && (by_ <? ay + ah).

(** The top-left corner a window has once it is restored: where
    [GetWindowRect] finds it after [ShowWindow(hwnd, SW_RESTORE)]. *)
Definition corner_in (d : gmap Z window) (hwnd : Z) : option (Z * Z) :=
  match d !! hwnd with
  | Some w => let r := w_rect (restore_window w) in Some (left r, top r)
  | None => None
  end.

Definition top_left (s : world) (hwnd : Z) : option (Z * Z) :=
  corner_in (desktop s) hwnd.

(** The window is not minimized and has the given size. *)
Definition sized_in (width height : Z) (d : gmap Z window) (hwnd : Z) : Prop :=
  exists w, d !! hwnd = Some w /\ w_restore w = None
            /\ right (w_rect w) = left (w_rect w) + width
            /\ bottom (w_rect w) = top (w_rect w) + height.

(** A placement that moves nothing: the size asked for, at the corner the
    window had in [s0]. *)
Definition keeps_corner (width height : Z) (s0 : world) (e : event) : Prop :=
  match e with
  | Called (SetWindowPos hwnd x y cx cy flags) =>
      cx = width /\ cy = height /\ top_left s0 hwnd = Some (x, y)
  | _ => True
  end.

(** What positioning dispatches for one window and its cell. *)
Definition placement (w : Z * string) (c : Z * Z * Z * Z) : list event :=
  let '(x, y, cx, cy) := c in
  [Called (ShowWindow w.1 SW_RESTORE); Slept 30;
   Called (SetWindowPos w.1 x y cx cy SWP_NOZORDER)].

(** [s] comes from [s0] by calls that left every corner in place. *)
Definition corners_kept (width height : Z) (s0 s : world) : Prop :=
  faults s = faults s0
  /\ (forall hwnd, top_left s hwnd = top_left s0 hwnd)
  /\ exists evs, trace s = trace s0 ++ evs
                 /\ Forall (keeps_corner width height s0) evs.

(** Every restored corner has coordinates that are passed unchanged:
    Windows keeps window positions as 32-bit values. *)
Definition corners_fit (s : world) : Prop :=
  forall hwnd x y, top_left s hwnd = Some (x, y) -> fits_int x /\ fits_int y.

(** Order by a key, as [list.sort(key=...)] compares. *)
Definition key_le {A} (key : A -> Z) (a b : A) : Prop := key a <= key b.

Definition no_faults (s : world) : Prop := forall k, faults s k = None.

(** How many elements of [l] had their body run to its end, in a loop
    [for x in l: try: body(x) except Exception as e: handler(x, e)]. *)
Fixpoint completed {A} (body : A -> M unit) (handler : A -> string -> M unit)
  (l : list A) (s : world) : Z :=
  match l with
  | [] => 0
  | x :: l' =>
      match body x s with
      | (Ok _, s') => 1 + completed body handler l' s'
      | (Raise e, s') => completed body handler l' (handler x e s').2
      end
  end.

(** The windows of the profile set whose zoom sequence ran to its end. *)
Definition zoom_completed (zoom_percent : Z) (s : world) : Z :=
  match steps_for zoom_percent with
  | Ok steps =>
      completed (fun w : Z * string => zoom_window steps w.1)
        (fun w e => print ("Error zooming " ++ w.2 ++ ": " ++ e)%string)
        (get_profile_windows s) s
  | Raise _ => 0
  end.

(** The creation time recorded for a window of the profile set. *)
Definition creation_le (s : world) (a b : Z * string) : Prop :=
  get_process_creation_time s a.1 <= get_process_creation_time s b.1.

(** ** Sample desktops *)

Definition sample_window (title class : string) (created x y : Z) : window :=
  mkWindow true title class (Some (0, created))
           (mkRECT x y (x + 300) (y + 200)) None.

Definition sample_desktop : gmap Z window :=
  list_to_map
    [(10, sample_window "Mimic A" "Qt5QWindow" 5 0 0);
     (11, sample_window "US12 - page" "Chrome_WidgetWin_1" 3 100 200);
     (12, sample_window "whoer" "X" 9 5 5);
     (13, sample_window "Notepad" "Notepad" 1 0 0);
     (14, mkWindow true "DE7" "Chrome_WidgetWin_1" (Some (0, 4))
            (mkRECT (-32000) (-32000) (-31840) (-31972))
            (Some (mkRECT 40 50 640 450)));
     (15, sample_window "My WhoerIP" "c" 2 1 1);
     (16, sample_window "Mimic - Multilogin X App" "Chrome_WidgetWin_1" 0 7 7);
     (17, sample_window "AB12 notes" "Notepad" 6 8 8)].

(** Five managed windows on a 1920x1080 screen whose work area is
    1920x1040, on Windows; no call of the keyboard module raises. *)
Definition sample_world : world :=
  mkWorld [10; 11; 12; 13; 14; 15; 16; 17] sample_desktop
          1920 1080 (mkRECT 0 0 1920 1040) false (fun _ => None) 0 [].

(** The same world where a C long has 64 bits. *)
Definition lp64 (s : world) : world :=
  mkWorld (z_order s) (desktop s) (screen_w s) (screen_h s) (work_rect s)
          true (faults s) (clock s) (trace s).

(** Two managed windows; the third foreign call, which is the first key
    press, raises. *)
Definition keyboard_fault_world : world :=
  mkWorld [10; 11] sample_desktop
          1920 1080 (mkRECT 0 0 1920 1040) false
          (fun k => if Nat.eqb k 2 then Some "key event not sent" else None)
          0 [].

(** The default settings with a horizontal gap of 2^70, as typed into the
    gap field. *)
Definition oversized_gap : settings :=
  mkSettings 0 0 1180591620717411303424 10 35 550 600.

(** ** Further readers and notions *)


(** The handles of a profile set. *)
Definition handles (l : list (Z * string)) : list Z := map fst l.

(** [s'] is reached from [s] by sleeping, printing, calls that raise and
    dispatched calls that all satisfy [ok]. *)
Inductive reach (ok : call -> Prop) : world -> world -> Prop :=
| reach_refl s : reach ok s s
| reach_tick s s' : reach ok (tick s) s' -> reach ok s s'
| reach_slept ms s s' : reach ok (record (Slept ms) s) s' -> reach ok s s'
| reach_printed msg s s' : reach ok (record (Printed msg) s) s' -> reach ok s s'
| reach_called c s s' :
    ok c ->
    reach ok (with_desktop (effect c (desktop s)) (record (Called c) s)) s' ->
    reach ok s s'.

(** Every run of [m] dispatches calls satisfying [ok] only. *)
Definition within {A} (ok : call -> Prop) (m : M A) : Prop :=
  forall s, reach ok s (m s).2.

(** The window a call is addressed to. *)
Definition call_target (c : call) : option Z :=
  match c with
  | ShowWindow hwnd _ | SetForegroundWindow hwnd | GetWindowRect hwnd
  | SetWindowPos hwnd _ _ _ _ _ => Some hwnd
  | press_and_release _ | write _ => None
  end.

Definition restores (ws : list Z) (c : call) : Prop :=
  exists hwnd, In hwnd ws /\ c = ShowWindow hwnd SW_RESTORE.

Definition foregrounds (ws : list Z) (c : call) : Prop :=
  exists hwnd, In hwnd ws /\ c = SetForegroundWindow hwnd.

Definition reads_rect (ws : list Z) (c : call) : Prop :=
  exists hwnd, In hwnd ws /\ c = GetWindowRect hwnd.

(** A placement of the given size, as [SetWindowPos] receives it. *)
Definition places (width height : Z) (ws : list Z) (c : call) : Prop :=
  exists hwnd x y,
    In hwnd ws
    /\ c = SetWindowPos hwnd x y (wrap_int width) (wrap_int height) SWP_NOZORDER.

Definition presses (keys : list string) (c : call) : Prop :=
  exists k, In k keys /\ c = press_and_release k.

(** The calls each action may dispatch on the profile set [ws]. *)
Definition position_calls (cfg : settings) (ws : list Z) (c : call) : Prop :=
  restores ws c \/ places (window_width cfg) (window_height cfg) ws c.

Definition resize_calls (width height : Z) (ws : list Z) (c : call) : Prop :=
  restores ws c \/ reads_rect ws c \/ places width height ws c.

Definition zoom_calls (ws : list Z) (c : call) : Prop :=
  restores ws c \/ foregrounds ws c \/ presses ["ctrl+0"; "ctrl+-"] c.

Definition open_url_calls (url : string) (ws : list Z) (c : call) : Prop :=
  restores ws c \/ foregrounds ws c \/ presses ["ctrl+t"; "enter"] c
  \/ c = write (normalize_url url).

(** What the classifier and the sort read of a window. *)
Definition identity (w : window) : bool * string * string * option (Z * Z) :=
  (w_visible w, w_title w, w_class w, w_creation w).

(** When no call raises, [m] returns and records exactly [evs]. *)
Definition runs (m : M unit) (evs : list event) : Prop :=
  forall s, no_faults s ->
    (m s).1 = Ok tt /\ trace (m s).2 = trace s ++ evs /\ no_faults (m s).2.

(** What zooming dispatches for one window. *)
Definition zoom_events (steps : nat) (hwnd : Z) : list event :=
  [Called (ShowWindow hwnd SW_RESTORE); Called (SetForegroundWindow hwnd);
   Slept 150; Called (press_and_release "ctrl+0"); Slept 80]
  ++ concat (replicate steps [Called (press_and_release "ctrl+-"); Slept 80]).

(** What navigating dispatches for one window. *)
Definition open_url_events (url : string) (hwnd : Z) : list event :=
  [Called (ShowWindow hwnd SW_RESTORE); Called (SetForegroundWindow hwnd);
   Slept 150; Called (press_and_release "ctrl+t"); Slept 300;
   Called (write url); Slept 150; Called (press_and_release "enter");
   Slept 200].

(** A cell whose four integers are passed unchanged, one whose integers
    are converted at all, and the cell as [SetWindowPos] receives it. *)
Definition fits_cell (c : Z * Z * Z * Z) : Prop :=
  let '(x, y, cx, cy) := c in
  fits_int x /\ fits_int y /\ fits_int cx /\ fits_int cy.

Definition convertible_cell (long64 : bool) (c : Z * Z * Z * Z) : bool :=
  let '(x, y, cx, cy) := c in
  convertible long64 x && convertible long64 y
  && convertible long64 cx && convertible long64 cy.

Definition wrap_cell (c : Z * Z * Z * Z) : Z * Z * Z * Z :=
  let '(x, y, cx, cy) := c in
  (wrap_int x, wrap_int y, wrap_int cx, wrap_int cy).


Definition place_on (c : Z * Z * Z * Z) (w : window) : window :=
  let '(x, y, cx, cy) := c in place_window x y cx cy w.


(** ** Notions for the title pattern *)


(** Every character satisfies [p]. *)
Fixpoint all_chars (p : ascii -> bool) (s : string) : bool :=
  match s with
  | EmptyString => true
  | String c s' => p c && all_chars p s'
  end.


(** ** Sequences of calls and waits *)

Inductive step :=
| Do (c : call)
| Wait (ms : Z).

Definition event_of (st : step) : event :=
  match st with
  | Do c => Called c
  | Wait ms => Slept ms
  end.

(** Run the steps in order; a call that raises ends the run. *)
Fixpoint run_script (l : list step) : M unit :=
  match l with
  | [] => ret tt
  | Do c :: l' => foreign c ;; run_script l'
  | Wait ms :: l' => sleep ms ;; run_script l'
  end.

(** The steps of [zoom_window] and of [open_url_window]. *)
Definition zoom_script (steps : nat) (hwnd : Z) : list step :=
  [Do (ShowWindow hwnd SW_RESTORE); Do (SetForegroundWindow hwnd); Wait 150;
   Do (press_and_release "ctrl+0"); Wait 80]
  ++ concat (replicate steps [Do (press_and_release "ctrl+-"); Wait 80]).

Definition open_url_script (url : string) (hwnd : Z) : list step :=
  [Do (ShowWindow hwnd SW_RESTORE); Do (SetForegroundWindow hwnd); Wait 150;
   Do (press_and_release "ctrl+t"); Wait 300; Do (write url); Wait 150;
   Do (press_and_release "enter"); Wait 200].

(** ** [int] and [str] on integers *)

Module PyInt.

(** The white space [int] skips at both ends of its argument. *)
Definition is_space (c : ascii) : bool :=
  PyStr.between 9 13 c || (PyStr.code c =? 32)%N
  || (PyStr.code c =? 133)%N || (PyStr.code c =? 160)%N.

Definition digit_value (c : ascii) : Z := Z.of_N (PyStr.code c) - 48.

Definition digit_char (d : Z) : ascii := ascii_of_N (Z.to_N (d + 48)).

(** Default of [sys.int_info.default_max_str_digits]. *)
Definition max_str_digits : nat := 4300.

Fixpoint skip_space (s : string) : string :=
  match s with
  | EmptyString => EmptyString
  | String c s' => if is_space c then skip_space s' else s
  end.

Fixpoint all_space (s : string) : bool :=
  match s with
  | EmptyString => true
  | String c s' => is_space c && all_space s'
  end.

(** The digits of a literal, read after its first digit was seen: digits,
    single underscores between digits, then white space to the end.
    Returns the value and the number of digits. *)
Fixpoint digits (acc : Z) (count : nat) (s : string) : option (Z * nat) :=
  match s with
  | EmptyString => Some (acc, count)
  | String c s' =>
      if PyStr.is_digit c then digits (10 * acc + digit_value c) (S count) s'
      else if (PyStr.code c =? 95)%N then
        match s' with
        | String d s'' =>
            if PyStr.is_digit d
            then digits (10 * acc + digit_value d) (S count) s''
            else None
        | EmptyString => None
        end
      else if all_space s then Some (acc, count)
      else None
  end.

(** [int(s)] for a string [s]; [None] is [ValueError]. *)
Definition int (s : string) : option Z :=
  let s := skip_space s in
  let '(sign, s) :=
    match s with
    | String c s' =>
        if (PyStr.code c =? 43)%N then (1, s')
        else if (PyStr.code c =? 45)%N then (-1, s')
        else (1, s)
    | EmptyString => (1, s)
    end in
  match s with
  | String c _ =>
      if PyStr.is_digit c then
        match digits 0 0 s with
        | Some (v, count) =>
            if (count <=? max_str_digits)%nat then Some (sign * v) else None
        | None => None
        end
      else None
  | EmptyString => None
  end.

(** The decimal digits of a natural number, most significant first. *)
Fixpoint decimal (fuel : nat) (n : Z) : string :=
  match fuel with
  | O => EmptyString
  | S fuel' =>
      if n <? 10 then String (digit_char n) EmptyString
      else (decimal fuel' (n / 10) ++ String (digit_char (n mod 10)) EmptyString)%string
  end.

(** [str(n)] for an integer [n]; it raises for more than 4300 digits. *)
Definition str (n : Z) : outcome string :=
  let ds := decimal (S (Z.to_nat (Z.log2 (Z.abs n)))) (Z.abs n) in
  if (String.length ds <=? max_str_digits)%nat
  then Ok (if n <? 0 then String "-" ds else ds)
  else Raise ("Exceeds the limit (4300 digits) for integer string conversion"
              ++ "; use sys.set_int_max_str_digits() to increase the limit")%string.

(** The value of a run of digits read after [acc]. *)
Fixpoint value (acc : Z) (s : string) : Z :=
  match s with
  | EmptyString => acc
  | String c s' => value (10 * acc + digit_value c) s'
  end.

End PyInt.

(** ** The control panel *)

(** The part of [App] that [apply_settings] and [App.position_windows]
    use: the settings dict, which the positioner shares, the four entry
    fields, the value [zoom_var.get()] returns, the status line, and the
    settings handed to [save_settings], oldest first. *)
Record App := mkApp {
  app_settings : settings;
  cols_var : string;
  rows_var : string;
  hgap_var : string;
  vgap_var : string;
  zoom_var : Z;
  status_var : string;
  saved : list settings
}.

Definition with_settings (st : settings) (a : App) : App :=
  mkApp st (cols_var a) (rows_var a) (hgap_var a) (vgap_var a) (zoom_var a)
        (status_var a) (saved a).

Definition with_status (msg : string) (a : App) : App :=
  mkApp (app_settings a) (cols_var a) (rows_var a) (hgap_var a) (vgap_var a)
        (zoom_var a) msg (saved a).

(** [save_settings(self.settings)] *)
Definition save_settings (a : App) : App :=
  mkApp (app_settings a) (cols_var a) (rows_var a) (hgap_var a) (vgap_var a)
        (zoom_var a) (status_var a) (saved a ++ [app_settings a]).

Definition set_grid_cols (v : Z) (st : settings) : settings :=
  mkSettings v (grid_rows st) (h_gap st) (v_gap st) (zoom_level st)
             (window_width st) (window_height st).

Definition set_grid_rows (v : Z) (st : settings) : settings :=
  mkSettings (grid_cols st) v (h_gap st) (v_gap st) (zoom_level st)
             (window_width st) (window_height st).

Definition set_h_gap (v : Z) (st : settings) : settings :=
  mkSettings (grid_cols st) (grid_rows st) v (v_gap st) (zoom_level st)
             (window_width st) (window_height st).

Definition set_v_gap (v : Z) (st : settings) : settings :=
  mkSettings (grid_cols st) (grid_rows st) (h_gap st) v (zoom_level st)
             (window_width st) (window_height st).

Definition set_zoom_level (v : Z) (st : settings) : settings :=
  mkSettings (grid_cols st) (grid_rows st) (h_gap st) (v_gap st) v
             (window_width st) (window_height st).

(** [App.apply_settings]: the entries are converted and stored one after
    the other; the first that is not an integer ends the method with
    [False], after the stores already made. *)
Definition apply_settings (a : App) : bool * App :=
  match PyInt.int (cols_var a) with
  | None => (false, a)
  | Some cols =>
      let a := with_settings (set_grid_cols cols (app_settings a)) a in
      match PyInt.int (rows_var a) with
      | None => (false, a)
      | Some rows =>
          let a := with_settings (set_grid_rows rows (app_settings a)) a in
          match PyInt.int (hgap_var a) with
          | None => (false, a)
          | Some hgap =>
              let a := with_settings (set_h_gap hgap (app_settings a)) a in
              match PyInt.int (vgap_var a) with
              | None => (false, a)
              | Some vgap =>
                  let a := with_settings (set_v_gap vgap (app_settings a)) a in
                  let a := with_settings
                             (set_zoom_level (zoom_var a) (app_settings a)) a in
                  (true, save_settings a)
              end
          end
      end
  end.

(** [App.position_windows]: the result of [apply_settings] is not looked
    at. An exception of the positioner or of the formatting leaves the
    method. *)
Definition app_position_windows (fuel : nat) (a : App) (s : world)
  : option (outcome unit * App * world) :=
  let a := (apply_settings a).2 in
  let a := with_status "Positioning..." a in
  match position_windows fuel (app_settings a) s with
  | None => None
  | Some (Raise e, s') => Some (Raise e, a, s')
  | Some (Ok count, s') =>
      if count =? 0 then Some (Ok tt, with_status "No windows found" a, s')
      else
        match PyInt.str count with
        | Ok text =>
            Some (Ok tt,
                  with_status ("Done! " ++ text ++ " windows positioned")%string a,
                  s')
        | Raise e => Some (Raise e, a, s')
        end
  end.

(** * Properties *)

(** ** Classifier *)

Lemma existsb_all_false {A} (f : A -> bool) (l : list A) :
  (forall x, In x l -> f x = false) -> existsb f l = false.
Proof.
  induction l as [|x l IH]; simpl; intros H; [reflexivity|].
  rewrite (H x) by (left; reflexivity). apply IH.
  intros y Hy. apply H. right. exact Hy.
Qed.

Lemma existsb_guarded {A} (f : A -> bool) (b : bool) (l : list A) :
  existsb (fun x => f x && b) l = existsb f l && b.
Proof.
  induction l as [|x l IH]; simpl; [reflexivity|].
  rewrite IH. destruct (f x), b, (existsb f l); reflexivity.
Qed.

Lemma truthy_nonempty (t : string) : t <> "" -> PyStr.truthy t = true.
Proof. destruct t; [congruence | reflexivity]. Qed.

(** The classifier rejects a title that holds an exclusion string before
    it looks at anything that could accept it. *)
Lemma exclusion_rejects (s : world) (hwnd : Z) :
  existsb (fun exclude =>
             PyStr.contains (PyStr.lower (get_window_title s hwnd)) exclude)
          EXCLUDE_INDICATORS = true ->
  is_profile_window s hwnd = false.
Proof.
  intros H. unfold is_profile_window. cbv zeta.
  destruct (negb (IsWindowVisible s hwnd)); [reflexivity|].
  destruct (negb (PyStr.truthy (get_window_title s hwnd))); [reflexivity|].
  rewrite H. reflexivity.
Qed.

(** C5: a visible window whose non-empty title holds no exclusion string
    and no inclusion keyword, but matches the pattern of two upper-case
    letters followed by digits as a whole word, is accepted exactly when
    its lower-cased class name contains [chrome_widgetwin]. *)
Theorem pattern_title_accepted_iff_browser_class (s : world) (hwnd : Z) :
  IsWindowVisible s hwnd = true ->
  get_window_title s hwnd <> "" ->
  (forall exclude, In exclude EXCLUDE_INDICATORS ->
     PyStr.contains (PyStr.lower (get_window_title s hwnd)) exclude = false) ->
  (forall indicator, In indicator PROFILE_INDICATORS ->
     PyStr.contains (PyStr.lower (get_window_title s hwnd)) indicator = false) ->
  existsb (fun pattern => Re.search pattern (get_window_title s hwnd))
          PROFILE_PATTERNS = true ->
  is_profile_window s hwnd = true <->
  PyStr.contains (PyStr.lower (get_window_class s hwnd)) "chrome_widgetwin"
  = true.
Proof.
  intros Hvis Htitle Hexcl Hincl Hpat. unfold is_profile_window.
  cbv zeta. rewrite Hvis, (truthy_nonempty _ Htitle). simpl negb. cbv iota.
  rewrite (existsb_all_false (fun e => PyStr.contains _ e) _ Hexcl).
  rewrite (existsb_all_false (fun e => PyStr.contains _ e) _ Hincl).
  rewrite existsb_guarded, Hpat. simpl andb.
  destruct (PyStr.contains _ "chrome_widgetwin"); split; congruence.
Qed.

Lemma pattern_title_accepted_iff_browser_class_witness :
  is_profile_window sample_world 11 = true <->
  PyStr.contains (PyStr.lower (get_window_class sample_world 11))
                 "chrome_widgetwin" = true.
Proof.
  apply (pattern_title_accepted_iff_browser_class sample_world 11).
  - reflexivity.
  - discriminate.
  - intros e [<-|[<-|[]]]; reflexivity.
  - intros e [<-|[<-|[<-|[]]]]; reflexivity.
  - reflexivity.
Defined.

(** C6: a window whose lower-cased title contains a string of the
    exclusion list is rejected, whatever else the title contains. *)
Theorem excluded_title_rejected (s : world) (hwnd : Z) (exclude : string) :
  In exclude EXCLUDE_INDICATORS ->
  PyStr.contains (PyStr.lower (get_window_title s hwnd)) exclude = true ->
  is_profile_window s hwnd = false.
Proof.
  intros Hin Hc. apply exclusion_rejects.
  apply existsb_exists. exists exclude. split; assumption.
Qed.

Lemma excluded_title_rejected_witness :
  existsb (fun indicator =>
             PyStr.contains (PyStr.lower (get_window_title sample_world 16))
                            indicator) PROFILE_INDICATORS = true
  /\ is_profile_window sample_world 16 = false.
Proof.
  split; [reflexivity|].
  apply (excluded_title_rejected sample_world 16 "multilogin x app").
  - left. reflexivity.
  - reflexivity.
Defined.

(** ** Zoom table *)

Lemma min_from_spec (key : Z -> Z) (l : list Z) (best : Z) :
  In (min_from key best l) (best :: l)
  /\ key (min_from key best l) <= key best
  /\ forall x, In x l -> key (min_from key best l) <= key x.
Proof.
  revert best. induction l as [|y l IH]; intros best; simpl.
  - split; [left; reflexivity|]. split; [lia|]. intros x [].
  - destruct (IH (if key y <? key best then y else best)) as (Hin & Hle & Hall).
    destruct (Z.ltb_spec (key y) (key best)) as [Hlt|Hge].
    + split; [destruct Hin as [<-|Hin]; auto|].
      split; [lia|]. intros x [<-|Hx]; [exact Hle | apply Hall, Hx].
    + split; [destruct Hin as [<-|Hin]; auto|].
      split; [exact Hle|]. intros x [<-|Hx]; [lia | apply Hall, Hx].
Qed.

Lemma dict_get_member {V} (d : list (Z * V)) (k : Z) :
  In k (map fst d) -> exists v, dict_get d k = Ok v /\ In (k, v) d.
Proof.
  induction d as [|[k' v'] d IH]; simpl; [intros []|].
  intros Hin. destruct (Z.eqb_spec k' k) as [->|Hne].
  - exists v'. split; [reflexivity | left; reflexivity].
  - destruct Hin as [Heq|Hin]; [congruence|].
    destruct (IH Hin) as (v & Hget & Hv). exists v. split; [exact Hget | right; exact Hv].
Qed.

(** The table lookup always finds a step count, the one of a nearest key. *)
Lemma steps_for_nearest (zoom_percent : Z) :
  exists closest steps,
    closest_zoom zoom_percent = Ok closest /\
    steps_for zoom_percent = Ok steps /\
    In (closest, steps) zoom_steps /\
    forall entry, In entry (map fst zoom_steps) ->
      Z.abs (closest - zoom_percent) <= Z.abs (entry - zoom_percent).
Proof.
  unfold steps_for, closest_zoom.
  set (key := fun x => Z.abs (x - zoom_percent)).
  change (map fst zoom_steps) with (100 :: map fst (tail zoom_steps)).
  cbn [py_min].
  destruct (min_from_spec key (map fst (tail zoom_steps)) 100) as (Hin & Hle & Hall).
  set (closest := min_from key 100 (map fst (tail zoom_steps))) in *.
  destruct (dict_get_member zoom_steps closest Hin) as (steps & Hget & Hmem).
  exists closest, steps. split; [reflexivity|]. split; [exact Hget|].
  split; [exact Hmem|].
  intros entry [<-|Hentry]; [exact Hle | apply Hall, Hentry].
Qed.

(** C7: the step count depends on the requested percentage alone and is
    that of a table key nearest to it in absolute difference; 35 gives 6
    steps and 60 gives the 4 steps of the key 67. *)
Theorem zoom_percent_to_steps :
  (forall zoom_percent, exists closest steps,
      closest_zoom zoom_percent = Ok closest /\
      steps_for zoom_percent = Ok steps /\
      In (closest, steps) zoom_steps /\
      forall entry, In entry (map fst zoom_steps) ->
        Z.abs (closest - zoom_percent) <= Z.abs (entry - zoom_percent))
  /\ steps_for 35 = Ok 6%nat
  /\ closest_zoom 60 = Ok 67
  /\ dict_get zoom_steps 67 = Ok 4%nat
  /\ steps_for 60 = Ok 4%nat.
Proof.
  split; [exact steps_for_nearest|]. repeat split; reflexivity.
Qed.

(** ** Blank URL *)

Lemma lstrip_all_space (url : string) :
  PyStr.all_space url = true -> PyStr.lstrip url = "".
Proof.
  induction url as [|c url IH]; simpl; [reflexivity|].
  destruct (PyStr.is_space c); simpl; [exact IH | discriminate].
Qed.

Lemma strip_all_space (url : string) :
  PyStr.all_space url = true -> PyStr.strip url = "".
Proof. intros H. unfold PyStr.strip. rewrite (lstrip_all_space _ H). reflexivity. Qed.

(** C10: for a URL that is empty or all white space the navigate action
    returns 0 and leaves the world as it found it: no call is dispatched,
    nothing is recorded in the trace, even with a non-empty profile set. *)
Theorem blank_url_dispatches_nothing (url : string) (apply_zoom_after : bool)
  (zoom_percent : Z) (s : world) :
  PyStr.all_space url = true ->
  open_url_in_all url apply_zoom_after zoom_percent s = (Ok 0, s).
Proof.
  intros H. unfold open_url_in_all.
  destruct (null (get_profile_windows s)); [reflexivity|].
  rewrite (strip_all_space _ H). simpl PyStr.truthy.
  rewrite orb_true_r. reflexivity.
Qed.

Lemma blank_url_dispatches_nothing_witness :
  get_profile_windows sample_world <> []
  /\ open_url_in_all "   " true 50 sample_world = (Ok 0, sample_world).
Proof.
  split; [vm_compute; discriminate|].
  apply (blank_url_dispatches_nothing "   " true 50 sample_world).
  reflexivity.
Defined.

(** ** Grid planner *)

Lemma map_fmap {A B} (f : A -> B) (l : list A) : map f l = f <$> l.
Proof. induction l as [|x l IH]; simpl; [reflexivity | rewrite IH; reflexivity]. Qed.

(** The loop leaves at once when the grid is large enough. *)
Lemma grow_cols_done (fuel : nat) (cols rows num_windows : Z) :
  num_windows <= cols * rows -> grow_cols fuel cols rows num_windows = Some cols.
Proof.
  intros H. destruct fuel; simpl;
    destruct (Z.ltb_spec (cols * rows) num_windows); (lia || reflexivity).
Qed.

(** Whatever the loop returns is a large enough grid. *)
Lemma grow_cols_enough_cells (fuel : nat) (cols rows num_windows c : Z) :
  grow_cols fuel cols rows num_windows = Some c ->
  cols <= c /\ num_windows <= c * rows.
Proof.
  revert cols. induction fuel as [|fuel IH]; intros cols; simpl;
    destruct (Z.ltb_spec (cols * rows) num_windows) as [Hlt|Hge]; intros H;
    try discriminate; try (injection H as <-; lia).
  destruct (IH _ H). lia.
Qed.

(** With at least one row the loop leaves after at most [num - cols]
    rounds, and more fuel does not change its answer. *)
Lemma grow_cols_terminates (fuel : nat) (cols rows num_windows : Z) :
  1 <= num_windows -> 1 <= rows ->
  (Z.to_nat (num_windows - cols) <= fuel)%nat ->
  grow_cols fuel cols rows num_windows
  = grow_cols (Z.to_nat (num_windows - cols)) cols rows num_windows
  /\ exists c, grow_cols fuel cols rows num_windows = Some c.
Proof.
  intros Hnum Hrows.
  remember (Z.to_nat (num_windows - cols)) as n eqn:Hn.
  revert cols fuel Hn. induction n as [|n IH]; intros cols fuel Hn Hfuel.
  - assert (num_windows <= cols * rows) by nia.
    rewrite !grow_cols_done by assumption. eauto.
  - destruct (Z.ltb_spec (cols * rows) num_windows) as [Hlt|Hge].
    + destruct fuel as [|fuel]; [lia|]. simpl.
      destruct (Z.ltb_spec (cols * rows) num_windows); [|lia].
      apply IH; lia.
    + rewrite !grow_cols_done by assumption. eauto.
Qed.

(** With a negative number of rows and too small a grid the loop never
    leaves: one more column makes the product smaller still. *)
Lemma grow_cols_diverges (fuel : nat) (cols rows num_windows : Z) :
  rows < 0 -> cols * rows < num_windows ->
  grow_cols fuel cols rows num_windows = None.
Proof.
  intros Hrows. revert cols. induction fuel as [|fuel IH]; intros cols Hsmall; simpl;
    destruct (Z.ltb_spec (cols * rows) num_windows); try lia; [reflexivity|].
  apply IH. nia.
Qed.

Lemma auto_size_ok (n area pitch : Z) :
  0 < pitch ->
  exists m, auto_size n area pitch = Ok m
            /\ (n = 0 -> 1 <= m) /\ (n <> 0 -> m = n).
Proof.
  intros Hp. unfold auto_size, floordiv.
  destruct (Z.eqb_spec n 0) as [->|Hn].
  - destruct (Z.eqb_spec pitch 0); [lia|].
    eexists. split; [reflexivity|]. split; [lia | congruence].
  - exists n. split; [reflexivity|]. split; [congruence | reflexivity].
Qed.

(** Cells at different indices lie in different columns or in different
    rows, one full pitch apart. *)
Lemma cells_disjoint (cfg : settings) (cols i j : Z) :
  cols <> 0 -> 0 <= h_gap cfg -> 0 <= v_gap cfg ->
  0 < window_width cfg -> 0 < window_height cfg ->
  i <> j ->
  overlap (cell cfg cols i) (cell cfg cols j) = false.
Proof.
  intros Hcols Hh Hv Hw Hht Hij. unfold overlap, cell. cbv zeta.
  pose proof (Z.div_mod i cols Hcols) as Hi.
  pose proof (Z.div_mod j cols Hcols) as Hj.
  set (ci := i mod cols) in *. set (ri := i / cols) in *.
  set (cj := j mod cols) in *. set (rj := j / cols) in *.
  destruct (Z.eq_dec ci cj) as [Hc|Hc].
  - assert (ri <> rj) as Hr by (intros E; apply Hij; rewrite Hi, Hj, Hc, E; reflexivity).
    destruct (Z.ltb_spec (ri * (window_height cfg + v_gap cfg))
                (rj * (window_height cfg + v_gap cfg) + window_height cfg));
      destruct (Z.ltb_spec (rj * (window_height cfg + v_gap cfg))
                  (ri * (window_height cfg + v_gap cfg) + window_height cfg));
      rewrite ?andb_false_r; try reflexivity.
    exfalso. assert (ri < rj \/ rj < ri) as [?|?] by lia; nia.
  - destruct (Z.ltb_spec (ci * (window_width cfg + h_gap cfg))
                (cj * (window_width cfg + h_gap cfg) + window_width cfg));
      destruct (Z.ltb_spec (cj * (window_width cfg + h_gap cfg))
                  (ci * (window_width cfg + h_gap cfg) + window_width cfg));
      try reflexivity.
    exfalso. assert (ci < cj \/ cj < ci) as [?|?] by lia; nia.
Qed.

Lemma plan_grid_cells_of (fuel : nat) (count work_w work_h : Z)
  (cfg : settings) (g : grid) :
  plan_grid fuel count work_w work_h cfg = Some (Ok g) ->
  cells g = map (cell cfg (columns g)) (seqZ 0 count)
  /\ count <= columns g * rows g.
Proof.
  unfold plan_grid. intros H.
  destruct (auto_size (grid_cols cfg) _ _) as [cols|]; [|discriminate].
  destruct (auto_size (grid_rows cfg) _ _) as [rws|]; [|discriminate].
  destruct (grow_cols fuel cols rws count) as [c|] eqn:Hgrow; [|discriminate].
  injection H as <-. simpl. split; [reflexivity|].
  apply (grow_cols_enough_cells _ _ _ _ _ Hgrow).
Qed.

(** The planner returns once the fuel covers the rounds of the loop. *)
Lemma plan_grid_returns (count work_w work_h : Z) (cfg : settings) :
  1 <= count ->
  0 <= h_gap cfg -> 0 <= v_gap cfg ->
  0 < window_width cfg -> 0 < window_height cfg ->
  0 <= grid_rows cfg \/ count <= grid_cols cfg * grid_rows cfg ->
  exists fuel0 g, forall fuel, (fuel0 <= fuel)%nat ->
    plan_grid fuel count work_w work_h cfg = Some (Ok g).
Proof.
  intros Hcount Hh Hv Hw Hht Hgrid.
  destruct (auto_size_ok (grid_cols cfg) work_w (window_width cfg + h_gap cfg))
    as (cols & Hcols & Hc0 & Hc1); [lia|].
  destruct (auto_size_ok (grid_rows cfg) work_h (window_height cfg + v_gap cfg))
    as (rws & Hrws & Hr0 & Hr1); [lia|].
  assert (exists fuel0 c, forall fuel, (fuel0 <= fuel)%nat ->
            grow_cols fuel cols rws count = Some c) as (fuel0 & c & Hgrow).
  { destruct (Z_le_gt_dec count (cols * rws)) as [Hbig|Hsmall].
    - exists O, cols. intros fuel _. apply grow_cols_done, Hbig.
    - assert (1 <= rws) as Hrows.
      { destruct (Z.eq_dec (grid_rows cfg) 0) as [E|E]; [auto|].
        rewrite (Hr1 E) in *. destruct Hgrid as [?|Hprod]; [lia|].
        destruct (Z.eq_dec (grid_cols cfg) 0) as [E'|E'].
        - rewrite E' in Hprod. lia.
        - rewrite (Hc1 E') in *. lia. }
      destruct (grow_cols_terminates (Z.to_nat (count - cols)) cols rws count)
        as (_ & c & Hc); [lia..|].
      exists (Z.to_nat (count - cols)), c. intros fuel Hfuel.
      destruct (grow_cols_terminates fuel cols rws count) as (-> & _); [lia..|].
      exact Hc. }
  exists fuel0, (mkGrid c rws (map (cell cfg c) (seqZ 0 count))).
  intros fuel Hfuel. unfold plan_grid. rewrite Hcols, Hrws, (Hgrow fuel Hfuel).
  reflexivity.
Qed.

(** C3, as amended: for a count of at least 1, non-negative gaps, a
    positive target size and a starting grid whose rows value is not
    negative or whose columns x rows already reaches the count, the
    planner returns, its grid has exactly count cells of the target width
    and height, no two of them overlap, and columns x rows reaches the
    count. *)
Theorem plan_grid_cells (count work_w work_h : Z) (cfg : settings) :
  1 <= count ->
  0 <= h_gap cfg -> 0 <= v_gap cfg ->
  0 < window_width cfg -> 0 < window_height cfg ->
  0 <= grid_rows cfg \/ count <= grid_cols cfg * grid_rows cfg ->
  exists fuel0 g,
    (forall fuel, (fuel0 <= fuel)%nat ->
       plan_grid fuel count work_w work_h cfg = Some (Ok g))
    /\ len (cells g) = count
    /\ (forall c, In c (cells g) ->
          c.1.2 = window_width cfg /\ c.2 = window_height cfg)
    /\ (forall i j ci cj,
          cells g !! i = Some ci -> cells g !! j = Some cj -> i <> j ->
          overlap ci cj = false)
    /\ count <= columns g * rows g.
Proof.
  intros Hcount Hh Hv Hw Hht Hgrid.
  destruct (plan_grid_returns count work_w work_h cfg) as (fuel0 & g & Hplan);
    try assumption.
  destruct (plan_grid_cells_of _ _ _ _ _ _ (Hplan fuel0 (le_n _))) as [Hcells Hprod].
  exists fuel0, g. split; [exact Hplan|]. rewrite Hcells.
  split; [unfold len; rewrite length_map, length_seqZ; lia|].
  split.
  { intros x Hx. apply in_map_iff in Hx as (i & <- & _). split; reflexivity. }
  split; [|exact Hprod].
  intros i j ci cj Hi Hj Hij.
  rewrite map_fmap, list_lookup_fmap in Hi, Hj.
  destruct (seqZ 0 count !! i) as [zi|] eqn:Ei; [|discriminate].
  destruct (seqZ 0 count !! j) as [zj|] eqn:Ej; [|discriminate].
  apply lookup_seqZ in Ei as [-> _]. apply lookup_seqZ in Ej as [-> _].
  simpl in Hi, Hj. injection Hi as <-. injection Hj as <-.
  apply cells_disjoint; try assumption; nia.
Qed.

Lemma plan_grid_cells_witness :
  exists fuel0 g,
    (forall fuel, (fuel0 <= fuel)%nat ->
       plan_grid fuel 5 1920 1040 DEFAULT_SETTINGS = Some (Ok g))
    /\ len (cells g) = 5
    /\ (forall c, In c (cells g) -> c.1.2 = 550 /\ c.2 = 600)
    /\ (forall i j ci cj,
          cells g !! i = Some ci -> cells g !! j = Some cj -> i <> j ->
          overlap ci cj = false)
    /\ 5 <= columns g * rows g.
Proof.
  apply (plan_grid_cells 5 1920 1040 DEFAULT_SETTINGS); simpl; lia.
Defined.

(** C3, as stated, fails when the rows value is negative: with one column,
    minus one row and one window the loop that grows the columns never
    leaves, so the planner returns no grid, whatever the fuel. *)
Lemma plan_grid_negative_rows_no_cells :
  ~ exists (fuel : nat) (r : outcome grid),
      plan_grid fuel 1 1920 1040 (mkSettings 1 (-1) 10 10 35 550 600) = Some r.
Proof.
  intros (fuel & r & H).
  change (match grow_cols fuel 1 (-1) 1 with
          | Some cols =>
              Some (Ok (mkGrid cols (-1)
                          (map (cell (mkSettings 1 (-1) 10 10 35 550 600) cols)
                               (seqZ 0 1))))
          | None => None
          end = Some r) in H.
  rewrite grow_cols_diverges in H by lia. discriminate H.
Qed.

(** C4: five windows, grid 0x0, target 550x600, gaps 10x10, work area
    1920x1040: columns 3 and rows 1 are computed, the columns grow to 5
    and the rows stay 1, and the five cells lie side by side, 560 apart.
    On the sample desktop, which has five managed windows and that work
    area, the five windows are placed on these cells, oldest first. *)
Theorem five_windows_auto_grid :
  auto_size 0 1920 (550 + 10) = Ok 3
  /\ auto_size 0 1040 (600 + 10) = Ok 1
  /\ grow_cols 2 3 1 5 = Some 5
  /\ (forall fuel : nat,
        plan_grid (2 + fuel) 5 1920 1040 DEFAULT_SETTINGS
        = Some (Ok (mkGrid 5 1
                      [(0, 0, 550, 600); (560, 0, 550, 600);
                       (1120, 0, 550, 600); (1680, 0, 550, 600);
                       (2240, 0, 550, 600)])))
  /\ get_work_area sample_world = (1920, 1040)
  /\ map fst (get_profile_windows sample_world) = [15; 11; 14; 10; 12]
  /\ (forall fuel : nat,
        option_map (fun r : outcome Z * world => (r.1, trace r.2))
                   (position_windows (2 + fuel) DEFAULT_SETTINGS sample_world)
        = Some (Ok 5,
                [Called (ShowWindow 15 9); Slept 30;
                 Called (SetWindowPos 15 0 0 550 600 4);
                 Called (ShowWindow 11 9); Slept 30;
                 Called (SetWindowPos 11 560 0 550 600 4);
                 Called (ShowWindow 14 9); Slept 30;
                 Called (SetWindowPos 14 1120 0 550 600 4);
                 Called (ShowWindow 10 9); Slept 30;
                 Called (SetWindowPos 10 1680 0 550 600 4);
                 Called (ShowWindow 12 9); Slept 30;
                 Called (SetWindowPos 12 2240 0 550 600 4)])).
Proof.
  split; [reflexivity|]. split; [reflexivity|]. split; [reflexivity|].
  split; [intros fuel; destruct fuel; reflexivity|].
  split; [reflexivity|]. split; [reflexivity|].
  intros fuel. destruct fuel; vm_compute; reflexivity.
Qed.

(** ** Profile set builder *)

Section Sorting.
Context {A : Type} (key : A -> Z).

Lemma insert_by_Permutation (x : A) (l : list A) :
  Permutation (insert_by key x l) (x :: l).
Proof.
  induction l as [|y l IH]; simpl; [reflexivity|].
  destruct (key x <=? key y); [reflexivity|].
  rewrite IH. apply perm_swap.
Qed.

Lemma sort_by_Permutation (l : list A) : Permutation (sort_by key l) l.
Proof.
  induction l as [|x l IH]; simpl; [reflexivity|].
  unfold sort_by in *. simpl. rewrite insert_by_Permutation, IH. reflexivity.
Qed.

Lemma insert_by_sorted (x : A) (l : list A) :
  StronglySorted (key_le key) l -> StronglySorted (key_le key) (insert_by key x l).
Proof.
  induction l as [|y l IH]; simpl; intros Hs.
  - repeat constructor.
  - apply StronglySorted_inv in Hs as [Hl Hy].
    destruct (Z.leb_spec (key x) (key y)) as [Hle|Hgt].
    + constructor; [constructor; assumption|].
      constructor; [exact Hle|].
      eapply Forall_impl; [exact Hy|]. unfold key_le. simpl. intros; lia.
    + constructor; [apply IH, Hl|].
      rewrite insert_by_Permutation. constructor; [unfold key_le; lia | exact Hy].
Qed.

Lemma sort_by_sorted (l : list A) : StronglySorted (key_le key) (sort_by key l).
Proof.
  induction l as [|x l IH]; [constructor|].
  unfold sort_by in *. simpl. apply insert_by_sorted, IH.
Qed.

(** The sort is stable: elements with the same key keep their order. *)
Lemma insert_by_stable (k : Z) (x : A) (l : list A) :
  StronglySorted (key_le key) l ->
  filter (fun a => key a = k) (insert_by key x l)
  = filter (fun a => key a = k) (x :: l).
Proof.
  induction l as [|y l IH]; simpl; intros Hs; [reflexivity|].
  apply StronglySorted_inv in Hs as [Hl Hy].
  destruct (Z.leb_spec (key x) (key y)) as [Hle|Hgt]; [reflexivity|].
  rewrite !filter_cons, IH by exact Hl. rewrite filter_cons.
  destruct (decide (key y = k)) as [Ey|Ey], (decide (key x = k)) as [Ex|Ex];
    try reflexivity.
  lia.
Qed.

Lemma sort_by_stable (k : Z) (l : list A) :
  filter (fun a => key a = k) (sort_by key l) = filter (fun a => key a = k) l.
Proof.
  induction l as [|x l IH]; [reflexivity|].
  unfold sort_by in *. simpl.
  rewrite insert_by_stable by apply sort_by_sorted.
  rewrite !filter_cons, IH. reflexivity.
Qed.
End Sorting.

Lemma StronglySorted_map_in {A B} (R1 : A -> A -> Prop) (R2 : B -> B -> Prop)
  (f : A -> B) (l : list A) :
  (forall x y, In x l -> In y l -> R1 x y -> R2 (f x) (f y)) ->
  StronglySorted R1 l -> StronglySorted R2 (map f l).
Proof.
  induction l as [|x l IH]; simpl; intros Hf Hs; [constructor|].
  apply StronglySorted_inv in Hs as [Hl Hx]. constructor.
  - apply IH; [|exact Hl]. intros a b Ha Hb. apply Hf; right; assumption.
  - rewrite List.Forall_forall in *. intros b Hb.
    apply in_map_iff in Hb as (a & <- & Ha).
    apply Hf; [left; reflexivity | right; exact Ha | apply Hx, Ha].
Qed.

(** Every record of the profile set describes an enumerated window that
    the classifier accepts, with the title and creation time read for it. *)
Lemma profile_records_sound (s : world) (x : Z * string * Z) :
  In x (profile_records s) ->
  In x.1.1 (z_order s)
  /\ is_profile_window s x.1.1 = true
  /\ x.1.2 = get_window_title s x.1.1
  /\ x.2 = get_process_creation_time s x.1.1.
Proof.
  unfold profile_records. intros Hx.
  apply (Permutation_in _ (sort_by_Permutation _ _)) in Hx.
  apply in_map_iff in Hx as (hwnd & <- & Hin). simpl.
  apply list_elem_of_In, list_elem_of_filter in Hin as [Hacc Hin].
  apply list_elem_of_In in Hin. auto.
Qed.

(** C9: the profile set holds exactly the enumerated windows the
    classifier accepts, each with its title, in ascending order of the
    creation time of the owning process. *)
Theorem profile_set_accepted_oldest_first (s : world) :
  Permutation (map fst (get_profile_windows s))
              (filter (fun hwnd => is_profile_window s hwnd = true) (z_order s))
  /\ (forall hwnd title, In (hwnd, title) (get_profile_windows s) ->
        title = get_window_title s hwnd)
  /\ StronglySorted (creation_le s) (get_profile_windows s).
Proof.
  unfold get_profile_windows. split; [|split].
  - rewrite map_map. simpl. unfold profile_records.
    rewrite (Permutation_map _ (sort_by_Permutation _ _)), map_map. simpl.
    rewrite map_id. reflexivity.
  - intros hwnd title Hin. apply in_map_iff in Hin as (x & Hx & Hin).
    injection Hx as <- <-. apply (profile_records_sound s x Hin).
  - apply (StronglySorted_map_in (key_le (fun x : Z * string * Z => x.2))).
    + intros x y Hx Hy Hle. unfold creation_le, key_le in *. simpl.
      destruct (profile_records_sound s x Hx) as (_ & _ & _ & <-).
      destruct (profile_records_sound s y Hy) as (_ & _ & _ & <-).
      exact Hle.
    + apply sort_by_sorted.
Qed.

(** ** Batched actions: what they return *)

Lemma for_each_ok_under {A} (I : world -> Prop) (f : A -> M unit)
  (l : list A) (s : world) :
  (forall x s, In x l -> I s -> (f x s).1 = Ok tt /\ I (f x s).2) ->
  I s ->
  (for_each f l s).1 = Ok tt /\ I (for_each f l s).2.
Proof.
  revert s. induction l as [|x l IH]; intros s Hf Hs; simpl; [auto|].
  unfold bind. destruct (Hf x s (or_introl eq_refl) Hs) as [Hok Hinv].
  destruct (f x s) as [[[]|e] s']; simpl in *; [|discriminate].
  apply IH; [|exact Hinv]. intros y t Hy. apply Hf. right. exact Hy.
Qed.

Lemma for_each_ok {A} (f : A -> M unit) (l : list A) (s : world) :
  (forall x s, (f x s).1 = Ok tt) -> (for_each f l s).1 = Ok tt.
Proof.
  intros Hf. apply (for_each_ok_under (fun _ => True)); auto.
Qed.

(** A [try] whose handler only prints never lets an exception out. *)
Lemma try_print_ok (body : M unit) (msg : string -> string) (s : world) :
  (try_except body (fun e => print (msg e)) s).1 = Ok tt.
Proof.
  unfold try_except. destruct (body s) as [[[]|e] s']; reflexivity.
Qed.

Lemma steps_for_ok (zoom_percent : Z) :
  exists steps, steps_for zoom_percent = Ok steps.
Proof.
  destruct (steps_for_nearest zoom_percent) as (c & n & _ & H & _). eauto.
Qed.

Lemma null_len {A} (l : list A) : null l = true -> len l = 0.
Proof. destruct l; [reflexivity | discriminate]. Qed.

Lemma apply_zoom_returns (zoom_percent : Z) (s : world) :
  (apply_zoom_to_all zoom_percent s).1 = Ok (len (get_profile_windows s)).
Proof.
  unfold apply_zoom_to_all.
  destruct (null (get_profile_windows s)) eqn:Hnull.
  - rewrite (null_len _ Hnull). reflexivity.
  - destruct (steps_for_ok zoom_percent) as (steps & ->).
    unfold bind, lift.
    pose proof (for_each_ok
      (fun '(hwnd, title) =>
         try_except (zoom_window steps hwnd)
           (fun e => print ("Error zooming " ++ title ++ ": " ++ e)%string))
      (get_profile_windows s) s) as Hloop.
    destruct (for_each _ _ s) as [[[]|e] s'].
    + reflexivity.
    + simpl in Hloop. discriminate Hloop.
      intros [hwnd title] t. apply try_print_ok.
Qed.

Lemma resize_returns (width height : Z) (s : world) :
  (resize_all_windows width height s).1 = Ok (len (get_profile_windows s)).
Proof.
  unfold resize_all_windows.
  destruct (null (get_profile_windows s)) eqn:Hnull.
  - rewrite (null_len _ Hnull). reflexivity.
  - unfold bind.
    pose proof (for_each_ok
      (fun '(hwnd, title) =>
         try_except (resize_window width height hwnd)
           (fun e => print ("Error resizing " ++ title ++ ": " ++ e)%string))
      (get_profile_windows s) s) as Hloop.
    destruct (for_each _ _ s) as [[[]|e] s'].
    + reflexivity.
    + simpl in Hloop. discriminate Hloop.
      intros [hwnd title] t. apply try_print_ok.
Qed.

Lemma rstrip_keeps_head (c : ascii) (url : string) :
  PyStr.is_space c = false -> PyStr.truthy (PyStr.rstrip (String c url)) = true.
Proof.
  intros Hc. simpl. destruct (PyStr.rstrip url); [rewrite Hc|]; reflexivity.
Qed.

Lemma strip_not_all_space (url : string) :
  PyStr.all_space url = false ->
  PyStr.truthy url = true /\ PyStr.truthy (PyStr.strip url) = true.
Proof.
  unfold PyStr.strip. induction url as [|c url IH]; simpl; [discriminate|].
  intros H. split; [reflexivity|].
  destruct (PyStr.is_space c) eqn:Hc; simpl in H.
  - apply IH, H.
  - apply rstrip_keeps_head, Hc.
Qed.

Lemma open_url_returns (url : string) (apply_zoom_after : bool)
  (zoom_percent : Z) (s : world) :
  (open_url_in_all url apply_zoom_after zoom_percent s).1
  = Ok (if PyStr.all_space url then 0 else len (get_profile_windows s)).
Proof.
  destruct (PyStr.all_space url) eqn:Hurl.
  - unfold open_url_in_all.
    destruct (null (get_profile_windows s)); [reflexivity|].
    rewrite (strip_all_space _ Hurl). simpl PyStr.truthy.
    rewrite orb_true_r. reflexivity.
  - unfold open_url_in_all.
    destruct (null (get_profile_windows s)) eqn:Hnull.
    + rewrite (null_len _ Hnull). reflexivity.
    + destruct (strip_not_all_space _ Hurl) as [-> ->]. simpl orb. cbv iota.
      unfold bind at 1.
      pose proof (for_each_ok
        (fun '(hwnd, title) =>
           try_except (open_url_window (normalize_url url) hwnd)
             (fun e => print ("Error opening URL in " ++ title ++ ": " ++ e)%string))
        (get_profile_windows s) s) as Hloop.
      destruct (for_each _ _ s) as [[[]|e] s'].
      * unfold bind. destruct apply_zoom_after; [|reflexivity].
        unfold sleep. pose proof (apply_zoom_returns zoom_percent
                                    (record (Slept 2000) s')) as Hz.
        destruct (apply_zoom_to_all _ _) as [[k|e] s'']; [reflexivity|].
        discriminate Hz.
      * simpl in Hloop. discriminate Hloop.
        intros [hwnd title] t. apply try_print_ok.
Qed.

(** ** Conversion of the arguments *)

Lemma wrap_int_fits (n : Z) : fits_int n -> wrap_int n = n.
Proof.
  unfold fits_int, wrap_int. intros H. rewrite Z.mod_small by lia. lia.
Qed.

Lemma wrap_int_range (n : Z) : fits_int (wrap_int n).
Proof.
  unfold fits_int, wrap_int.
  pose proof (Z.mod_pos_bound (n + 2147483648) 4294967296). lia.
Qed.

Lemma fits_convertible (long64 : bool) (n : Z) :
  fits_int n -> convertible long64 n = true.
Proof.
  unfold fits_int, convertible. intros H.
  destruct long64; apply andb_true_iff; split; lia.
Qed.

Lemma fits_cell_convertible (long64 : bool) (c : Z * Z * Z * Z) :
  fits_cell c -> convertible_cell long64 c = true.
Proof.
  destruct c as [[[x y] cx] cy]. intros (Hx & Hy & Hcx & Hcy).
  unfold convertible_cell.
  rewrite !fits_convertible by assumption. reflexivity.
Qed.

Lemma fits_cell_wrap (c : Z * Z * Z * Z) : fits_cell c -> wrap_cell c = c.
Proof.
  destruct c as [[[x y] cx] cy]. intros (Hx & Hy & Hcx & Hcy). simpl.
  rewrite !wrap_int_fits by assumption. reflexivity.
Qed.

Lemma marshal_convertible (long64 : bool) (hwnd x y cx cy flags : Z) :
  convertible_cell long64 (x, y, cx, cy) = true ->
  marshal long64 (SetWindowPos hwnd x y cx cy flags)
  = Ok (SetWindowPos hwnd (wrap_int x) (wrap_int y) (wrap_int cx) (wrap_int cy)
                     flags).
Proof.
  unfold convertible_cell, marshal, c_int. intros H.
  apply andb_true_iff in H as [H ->]. apply andb_true_iff in H as [H ->].
  apply andb_true_iff in H as [-> ->]. reflexivity.
Qed.

Lemma marshal_not_convertible (long64 : bool) (hwnd x y cx cy flags : Z) :
  convertible_cell long64 (x, y, cx, cy) = false ->
  exists e, marshal long64 (SetWindowPos hwnd x y cx cy flags) = Raise e.
Proof.
  unfold convertible_cell, marshal, c_int.
  destruct (convertible long64 x); [|eauto].
  destruct (convertible long64 y); [|eauto].
  destruct (convertible long64 cx); [|eauto].
  destruct (convertible long64 cy); [|eauto].
  discriminate.
Qed.

(** Below [-2^63] and from [2^64] on an integer is refused by both data
    models; between [-2^31] and [2^32 - 1] it is converted by both. *)
Lemma convertible_any (long64 : bool) (n : Z) :
  (n < -9223372036854775808 \/ 18446744073709551615 < n ->
   convertible long64 n = false)
  /\ (-2147483648 <= n <= 4294967295 -> convertible long64 n = true).
Proof.
  unfold convertible. split; intros H; destruct long64;
    first [apply andb_false_iff; lia | apply andb_true_iff; lia].
Qed.

(** A call of user32 whose arguments are converted is dispatched. *)
Lemma foreign_user32 (c c' : call) (s : world) :
  from_keyboard c = false -> marshal (long64 s) c = Ok c' ->
  foreign c s
  = (Ok tt, with_desktop (effect c' (desktop s)) (record (Called c') (tick s))).
Proof. intros Hk Hm. unfold foreign. rewrite Hm, Hk. reflexivity. Qed.

(** ** One round of the positioning loop *)

Lemma for_each_cons {A} (f : A -> M unit) (x : A) (l : list A) (s : world) :
  for_each f (x :: l) s
  = match f x s with
    | (Ok _, s') => for_each f l s'
    | (Raise e, s') => (Raise e, s')
    end.
Proof. reflexivity. Qed.

(** With a cell that is converted, the window is restored and placed on the
    cell as [SetWindowPos] receives it. *)
Lemma position_window_places (cfg : settings) (cols i hwnd : Z)
  (title : string) (s : world) :
  convertible_cell (long64 s) (cell cfg cols i) = true ->
  let r := position_window cfg cols (i, (hwnd, title)) s in
  r.1 = Ok tt
  /\ desktop r.2
     = alter (place_on (wrap_cell (cell cfg cols i))) hwnd
             (alter restore_window hwnd (desktop s))
  /\ trace r.2
     = trace s ++ placement (hwnd, title) (wrap_cell (cell cfg cols i)).
Proof.
  intros H. cbv zeta. unfold position_window, place_on, placement.
  destruct (cell cfg cols i) as [[[x y] cx] cy].
  unfold bind, sleep.
  rewrite (foreign_user32 (ShowWindow hwnd SW_RESTORE)
             (ShowWindow hwnd SW_RESTORE)) by reflexivity.
  erewrite (foreign_user32 (SetWindowPos hwnd x y cx cy SWP_NOZORDER));
    [|reflexivity|exact (marshal_convertible _ _ _ _ _ _ _ H)].
  simpl. rewrite <- !app_assoc. auto.
Qed.

(** With a cell that is not converted, the round raises. *)
Lemma position_window_raises (cfg : settings) (cols i hwnd : Z)
  (title : string) (s : world) :
  convertible_cell (long64 s) (cell cfg cols i) = false ->
  exists e, (position_window cfg cols (i, (hwnd, title)) s).1 = Raise e.
Proof.
  intros H. unfold position_window.
  destruct (cell cfg cols i) as [[[x y] cx] cy].
  destruct (marshal_not_convertible _ hwnd x y cx cy SWP_NOZORDER H) as [e He].
  exists e. unfold bind, sleep.
  rewrite (foreign_user32 (ShowWindow hwnd SW_RESTORE)
             (ShowWindow hwnd SW_RESTORE)) by reflexivity.
  unfold foreign. cbn [long64 record with_desktop tick]. rewrite He.
  reflexivity.
Qed.

(** The data model stays what it is. *)
Lemma position_window_long64 (cfg : settings) (cols : Z)
  (iw : Z * (Z * string)) (s : world) :
  long64 (position_window cfg cols iw s).2 = long64 s.
Proof.
  destruct iw as [i [hwnd title]]. unfold position_window.
  destruct (cell cfg cols i) as [[[x y] cx] cy].
  unfold bind, sleep.
  rewrite (foreign_user32 (ShowWindow hwnd SW_RESTORE)
             (ShowWindow hwnd SW_RESTORE)) by reflexivity.
  unfold foreign. cbn [long64 record with_desktop tick from_keyboard].
  destruct (marshal (long64 s) _); reflexivity.
Qed.

(** The loop returns exactly when every cell is converted. *)
Lemma position_loop_ok (cfg : settings) (cols : Z)
  (l : list (Z * (Z * string))) (s : world) :
  (forall iw, In iw l ->
              convertible_cell (long64 s) (cell cfg cols iw.1) = true) ->
  (for_each (position_window cfg cols) l s).1 = Ok tt.
Proof.
  revert s. induction l as [|[i [hwnd title]] l IH]; intros s Hl;
    [reflexivity|].
  rewrite for_each_cons.
  destruct (position_window_places cfg cols i hwnd title s) as (Hok & _);
    [apply (Hl (i, (hwnd, title))); left; reflexivity|].
  cbv zeta in Hok.
  pose proof (position_window_long64 cfg cols (i, (hwnd, title)) s) as Hb.
  destruct (position_window cfg cols (i, (hwnd, title)) s) as [[[]|e] s1];
    [|discriminate].
  apply IH. intros iw Hin. cbn [snd] in Hb. rewrite Hb. apply Hl. right.
  exact Hin.
Qed.

Lemma position_loop_ok_inv (cfg : settings) (cols : Z)
  (l : list (Z * (Z * string))) (s : world) :
  (for_each (position_window cfg cols) l s).1 = Ok tt ->
  forall iw, In iw l ->
             convertible_cell (long64 s) (cell cfg cols iw.1) = true.
Proof.
  revert s. induction l as [|[i [hwnd title]] l IH]; intros s Hok iw Hin;
    [destruct Hin|].
  rewrite for_each_cons in Hok.
  destruct (convertible_cell (long64 s) (cell cfg cols i)) eqn:Hc.
  - pose proof (position_window_long64 cfg cols (i, (hwnd, title)) s) as Hb.
    destruct (position_window cfg cols (i, (hwnd, title)) s) as [[[]|e] s1];
      [|discriminate].
    cbn [snd] in Hb. rewrite <- Hb.
    destruct Hin as [<-|Hin]; [rewrite Hb; exact Hc | eapply IH; eassumption].
  - destruct (position_window_raises cfg cols i hwnd title s Hc) as [e He].
    destruct (position_window cfg cols (i, (hwnd, title)) s) as [[[]|e'] s1];
      discriminate.
Qed.

Lemma enumerate_index_in {A} (k i : Z) (x : A) (l : list A) :
  In (i, x) (enumerate k l) -> k <= i < k + len l.
Proof.
  revert k. induction l as [|y l IH]; intros k; simpl; [intros []|].
  unfold len in *. intros [[= <- _]|H]; [simpl; lia|].
  apply IH in H. simpl length. lia.
Qed.

Lemma enumerate_lookup {A} (k : Z) (l : list A) (i : nat) (x : A) :
  l !! i = Some x -> In (k + Z.of_nat i, x) (enumerate k l).
Proof.
  revert k i. induction l as [|y l IH]; intros k [|i] Hi; simpl in Hi;
    try discriminate.
  - injection Hi as ->. left. f_equal. lia.
  - right. replace (k + Z.of_nat (S i)) with (k + 1 + Z.of_nat i) by lia.
    apply IH, Hi.
Qed.

Lemma cells_in (cfg : settings) (cols count : Z) (g : grid) (i : Z) :
  cells g = map (cell cfg cols) (seqZ 0 count) ->
  0 <= i < count -> In (cell cfg cols i) (cells g).
Proof.
  intros -> Hi. apply in_map, list_elem_of_In, elem_of_seqZ. lia.
Qed.

(** ** Batched actions: what position returns *)

Lemma position_windows_empty (fuel : nat) (cfg : settings) (s : world) :
  get_profile_windows s = [] -> position_windows fuel cfg s = Some (Ok 0, s).
Proof. intros H. unfold position_windows. rewrite H. reflexivity. Qed.

Lemma position_windows_count (fuel : nat) (cfg : settings) (s : world)
  (r : outcome Z * world) (k : Z) :
  position_windows fuel cfg s = Some r -> r.1 = Ok k ->
  k = len (get_profile_windows s).
Proof.
  unfold position_windows.
  destruct (null (get_profile_windows s)) eqn:Hnull.
  - rewrite (null_len _ Hnull). intros [= <-] [= <-]. reflexivity.
  - destruct (get_work_area s) as [work_w work_h].
    destruct (plan_grid fuel _ work_w work_h cfg) as [[g|e]|]; try discriminate.
    + unfold bind, ret. destruct (for_each _ _ s) as [[[]|e] s'].
      * intros [= <-] [= <-]. reflexivity.
      * intros [= <-]. discriminate.
    + intros [= <-]. discriminate.
Qed.

(** With a planned grid whose cells are all converted, position returns
    the number of windows. *)
Lemma position_windows_converted (fuel : nat) (cfg : settings) (s : world)
  (g : grid) :
  plan_grid fuel (len (get_profile_windows s))
            (get_work_area s).1 (get_work_area s).2 cfg = Some (Ok g) ->
  (forall c, In c (cells g) -> convertible_cell (long64 s) c = true) ->
  exists s', position_windows fuel cfg s
             = Some (Ok (len (get_profile_windows s)), s').
Proof.
  intros Hplan Hcells. unfold position_windows.
  destruct (null (get_profile_windows s)) eqn:Hnull.
  { rewrite (null_len _ Hnull). eauto. }
  destruct (plan_grid_cells_of _ _ _ _ _ _ Hplan) as [Hg _].
  destruct (get_work_area s) as [work_w work_h]. simpl in Hplan.
  rewrite Hplan. unfold bind, ret.
  pose proof (position_loop_ok cfg (columns g)
                (enumerate 0 (get_profile_windows s)) s) as Hok.
  destruct (for_each _ _ s) as [[[]|e] s']; [eauto|].
  discriminate Hok. intros [i w] Hin. cbn [fst].
  apply Hcells, (cells_in cfg _ _ g i Hg).
  apply enumerate_index_in in Hin. lia.
Qed.

(** Whatever makes the planner return a grid with a non-negative rows
    setting gives at least one column. *)
Lemma plan_grid_columns_positive (fuel : nat) (count work_w work_h : Z)
  (cfg : settings) (g : grid) :
  1 <= count -> 0 <= grid_rows cfg ->
  plan_grid fuel count work_w work_h cfg = Some (Ok g) ->
  0 < columns g.
Proof.
  intros Hcount Hrows. unfold plan_grid.
  destruct (auto_size (grid_cols cfg) _ _) as [cols|]; [|discriminate].
  destruct (auto_size (grid_rows cfg) _ _) as [rws|] eqn:Hrws; [|discriminate].
  destruct (grow_cols fuel cols rws count) as [c|] eqn:Hgrow; [|discriminate].
  intros [= <-]. simpl.
  apply grow_cols_enough_cells in Hgrow as [_ Hprod].
  assert (1 <= rws) as Hr.
  { unfold auto_size in Hrws. destruct (Z.eqb_spec (grid_rows cfg) 0).
    - destruct (floordiv _ _); [injection Hrws as <-; lia | discriminate].
    - injection Hrws as <-. lia. }
  nia.
Qed.

(** The cells of the first [count] indices fit when [count] pitches do. *)
Lemma cell_fits (cfg : settings) (cols count i : Z) :
  0 < cols -> 0 <= i < count ->
  0 <= h_gap cfg -> 0 <= v_gap cfg ->
  0 < window_width cfg -> 0 < window_height cfg ->
  count * (window_width cfg + h_gap cfg) < 2147483648 ->
  count * (window_height cfg + v_gap cfg) < 2147483648 ->
  fits_cell (cell cfg cols i).
Proof.
  intros Hcols Hi Hh Hv Hw Hht Hx Hy. unfold cell, fits_cell, fits_int.
  cbv zeta.
  pose proof (Z.mod_pos_bound i cols Hcols) as Hcol.
  pose proof (Z.mod_le i cols ltac:(lia) Hcols) as Hcol'.
  pose proof (Z.div_pos i cols ltac:(lia) Hcols) as Hrow.
  pose proof (Z.mul_div_le i cols Hcols) as Hrow'.
  assert (i / cols <= i) by nia.
  repeat split; nia.
Qed.

Lemma position_windows_returns (cfg : settings) (s : world) :
  0 <= h_gap cfg -> 0 <= v_gap cfg ->
  0 < window_width cfg -> 0 < window_height cfg ->
  0 <= grid_rows cfg ->
  len (get_profile_windows s) * (window_width cfg + h_gap cfg) < 2147483648 ->
  len (get_profile_windows s) * (window_height cfg + v_gap cfg) < 2147483648 ->
  exists fuel0, forall fuel, (fuel0 <= fuel)%nat ->
    exists s', position_windows fuel cfg s
               = Some (Ok (len (get_profile_windows s)), s').
Proof.
  intros Hh Hv Hw Hht Hrows Hx Hy.
  destruct (null (get_profile_windows s)) eqn:Hnull.
  - exists O. intros fuel _. exists s. unfold position_windows.
    rewrite Hnull, (null_len _ Hnull). reflexivity.
  - assert (1 <= len (get_profile_windows s)) as Hcount.
    { unfold len. destruct (get_profile_windows s); [discriminate | simpl; lia]. }
    destruct (plan_grid_returns (len (get_profile_windows s))
                (get_work_area s).1 (get_work_area s).2 cfg)
      as (fuel0 & g & Hplan); try assumption; [left; exact Hrows|].
    exists fuel0. intros fuel Hfuel. specialize (Hplan fuel Hfuel).
    apply (position_windows_converted fuel cfg s g Hplan).
    destruct (plan_grid_cells_of _ _ _ _ _ _ Hplan) as [Hg _].
    pose proof (plan_grid_columns_positive _ _ _ _ _ _ Hcount Hrows Hplan)
      as Hcols.
    intros c Hc. rewrite Hg in Hc. apply in_map_iff in Hc as (i & <- & Hi).
    apply list_elem_of_In, elem_of_seqZ in Hi.
    apply fits_cell_convertible.
    apply (cell_fits cfg _ (len (get_profile_windows s))); assumption || lia.
Qed.

(** C2, as amended: every action returns 0 for an empty profile set, and
    navigate also for a blank URL; otherwise zoom, resize and navigate
    return the number of windows of the profile set, failed windows
    included, and so does position whenever it returns; it does return
    when the gaps are not negative, the window size is positive, the rows
    setting is not negative and as many pitches (size plus gap) as there
    are windows stay below 2^31 each way, so that every coordinate is
    passed to [SetWindowPos] unchanged. *)
Theorem actions_return_profile_set_size (s : world) :
  (forall zoom_percent,
      (apply_zoom_to_all zoom_percent s).1 = Ok (len (get_profile_windows s)))
  /\ (forall width height,
        (resize_all_windows width height s).1 = Ok (len (get_profile_windows s)))
  /\ (forall url apply_zoom_after zoom_percent,
        (open_url_in_all url apply_zoom_after zoom_percent s).1
        = Ok (if PyStr.all_space url then 0 else len (get_profile_windows s)))
  /\ (forall fuel cfg r k,
        position_windows fuel cfg s = Some r -> r.1 = Ok k ->
        k = len (get_profile_windows s))
  /\ (get_profile_windows s = [] ->
      forall fuel cfg, position_windows fuel cfg s = Some (Ok 0, s))
  /\ (forall cfg,
        0 <= h_gap cfg -> 0 <= v_gap cfg ->
        0 < window_width cfg -> 0 < window_height cfg ->
        0 <= grid_rows cfg ->
        len (get_profile_windows s) * (window_width cfg + h_gap cfg)
        < 2147483648 ->
        len (get_profile_windows s) * (window_height cfg + v_gap cfg)
        < 2147483648 ->
        exists fuel0, forall fuel, (fuel0 <= fuel)%nat ->
          exists s', position_windows fuel cfg s
                     = Some (Ok (len (get_profile_windows s)), s')).
Proof.
  split; [intros; apply apply_zoom_returns|].
  split; [intros; apply resize_returns|].
  split; [intros; apply open_url_returns|].
  split; [intros fuel cfg r k; apply position_windows_count|].
  split; [intros H fuel cfg; apply position_windows_empty, H|].
  intros cfg. apply position_windows_returns.
Qed.

Lemma sample_world_profile_set :
  get_profile_windows sample_world
  = [(15, "My WhoerIP"); (11, "US12 - page"); (14, "DE7"); (10, "Mimic A");
     (12, "whoer")].
Proof. vm_compute. reflexivity. Qed.

Lemma actions_return_profile_set_size_witness :
  (apply_zoom_to_all 50 keyboard_fault_world).1 = Ok 2
  /\ exists fuel0, forall fuel, (fuel0 <= fuel)%nat ->
       exists s', position_windows fuel DEFAULT_SETTINGS sample_world
                  = Some (Ok 5, s').
Proof.
  split.
  - destruct (actions_return_profile_set_size keyboard_fault_world)
      as (Hzoom & _).
    exact (Hzoom 50).
  - destruct (actions_return_profile_set_size sample_world)
      as (_ & _ & _ & _ & _ & Hpos).
    rewrite sample_world_profile_set in Hpos.
    apply (Hpos DEFAULT_SETTINGS); unfold len; simpl; lia.
Defined.

(** C2, as stated, fails: with two managed windows of which the first has
    its first key press raise, zoom returns 2 although one window only had
    its sequence run to the end. *)
Lemma zoom_counts_failed_window :
  (apply_zoom_to_all 50 keyboard_fault_world).1 = Ok 2
  /\ zoom_completed 50 keyboard_fault_world = 1
  /\ (apply_zoom_to_all 50 keyboard_fault_world).1
     <> Ok (zoom_completed 50 keyboard_fault_world).
Proof.
  split; [vm_compute; reflexivity|]. split; [vm_compute; reflexivity|].
  vm_compute. discriminate.
Qed.

(** ** A failure while positioning *)

(** Whatever the desktop, one planned cell that cannot be passed to
    [SetWindowPos] makes [position_windows] raise: no count comes back. *)
Lemma position_windows_lets_exception_out (fuel : nat) (cfg : settings)
  (s : world) (g : grid) (c : Z * Z * Z * Z) :
  plan_grid fuel (len (get_profile_windows s))
            (get_work_area s).1 (get_work_area s).2 cfg = Some (Ok g) ->
  In c (cells g) -> convertible_cell (long64 s) c = false ->
  exists e s', position_windows fuel cfg s = Some (Raise e, s').
Proof.
  intros Hplan Hc Hbad.
  destruct (plan_grid_cells_of _ _ _ _ _ _ Hplan) as [Hg _].
  rewrite Hg in Hc. apply in_map_iff in Hc as (i & <- & Hi).
  apply list_elem_of_In, elem_of_seqZ in Hi.
  unfold position_windows.
  destruct (null (get_profile_windows s)) eqn:Hnull.
  { rewrite (null_len _ Hnull) in Hi. lia. }
  destruct (get_work_area s) as [work_w work_h]. simpl in Hplan.
  rewrite Hplan. unfold bind, ret.
  pose proof (position_loop_ok_inv cfg (columns g)
                (enumerate 0 (get_profile_windows s)) s) as Hinv.
  destruct (for_each _ _ s) as [[[]|e] s']; [|eauto].
  exfalso.
  assert (exists w, get_profile_windows s !! Z.to_nat i = Some w) as [w Hw].
  { apply lookup_lt_is_Some. unfold len in Hi. lia. }
  specialize (Hinv eq_refl (i, w)). cbn [fst] in Hinv.
  rewrite Hinv in Hbad; [discriminate|].
  replace i with (0 + Z.of_nat (Z.to_nat i)) at 1 by lia.
  apply enumerate_lookup, Hw.
Qed.

(** More fuel than the column loop needs changes nothing. *)
Lemma position_windows_fuel (fuel fuel' : nat) (cfg : settings) (s : world) :
  plan_grid fuel (len (get_profile_windows s))
            (get_work_area s).1 (get_work_area s).2 cfg
  = plan_grid fuel' (len (get_profile_windows s))
              (get_work_area s).1 (get_work_area s).2 cfg ->
  position_windows fuel cfg s = position_windows fuel' cfg s.
Proof.
  intros H. unfold position_windows.
  destruct (null (get_profile_windows s)); [reflexivity|].
  destruct (get_work_area s) as [work_w work_h]. simpl in H. rewrite H.
  reflexivity.
Qed.

Ltac find_event := repeat (first [left; reflexivity | right]).

(** C1: with five managed windows and a horizontal gap of 2^70, the
    placement of the second window cannot be passed to [SetWindowPos]: the
    [ArgumentError] leaves [position_windows], which has restored and
    placed the first window, restored the second, and never reaches the
    other three.  With a width of 2^70 resize meets the same error at
    every window, skips it and carries on; zoom and navigate do the same
    with a key press that raises. *)
Theorem position_aborts_on_failing_window :
  get_profile_windows sample_world
  = [(15, "My WhoerIP"); (11, "US12 - page"); (14, "DE7"); (10, "Mimic A");
     (12, "whoer")]
  /\ (exists s',
        (forall fuel : nat, (4 <= fuel)%nat ->
           position_windows fuel oversized_gap sample_world
           = Some (Raise "argument 3: OverflowError: int too long to convert",
                   s'))
        /\ trace s'
           = [Called (ShowWindow 15 SW_RESTORE); Slept 30;
              Called (SetWindowPos 15 0 0 550 600 SWP_NOZORDER);
              Called (ShowWindow 11 SW_RESTORE); Slept 30]
        /\ desktop s' !! 14 = desktop sample_world !! 14
        /\ desktop s' !! 10 = desktop sample_world !! 10
        /\ desktop s' !! 12 = desktop sample_world !! 12)
  /\ (let r := resize_all_windows 1180591620717411303424 900 sample_world in
      r.1 = Ok 5
      /\ In (Printed "Error resizing My WhoerIP: argument 5: OverflowError: int too long to convert")
            (trace r.2)
      /\ In (Called (GetWindowRect 12)) (trace r.2))
  /\ (let r := apply_zoom_to_all 50 keyboard_fault_world in
      r.1 = Ok 2
      /\ In (Printed "Error zooming US12 - page: key event not sent")
            (trace r.2)
      /\ In (Called (SetForegroundWindow 10)) (trace r.2))
  /\ (let r := open_url_in_all "example.com" false 50 keyboard_fault_world in
      r.1 = Ok 2
      /\ In (Printed "Error opening URL in US12 - page: key event not sent")
            (trace r.2)
      /\ In (Called (write "https://example.com")) (trace r.2)).
Proof.
  split; [exact sample_world_profile_set|].
  split.
  { assert (exists s', position_windows 4 oversized_gap sample_world
                       = Some (Raise "argument 3: OverflowError: int too long to convert", s'))
      as [s' Hrun] by (vm_compute; eexists; reflexivity).
    exists s'. split.
    - intros fuel Hfuel. rewrite <- Hrun. apply position_windows_fuel.
      rewrite sample_world_profile_set.
      change (len _) with 5. change (get_work_area sample_world) with (1920, 1040).
      unfold plan_grid.
      change (auto_size (grid_cols oversized_gap) _ _) with (@Ok Z 1).
      change (auto_size (grid_rows oversized_gap) _ _) with (@Ok Z 1).
      cbv iota beta.
      destruct (grow_cols_terminates fuel 1 1 5) as [-> _]; [lia..|].
      reflexivity.
    - vm_compute in Hrun. injection Hrun as <-.
      split; [|split; [|split]]; vm_compute; reflexivity. }
  cbv zeta.
  split; [|split];
    (split; [vm_compute; reflexivity|]; split; vm_compute; find_event).
Qed.

(** Between 2^32 and 2^64 the data models part: with a window width of
    2^31 the third window has x = 2 * (2^31 + 10), which is refused where
    a long has 32 bits and passed as 20 where it has 64. *)
Lemma wide_window_in_both_data_models :
  (exists s',
      position_windows 5 (mkSettings 0 0 10 10 35 2147483648 600) sample_world
      = Some (Raise "argument 3: OverflowError: int too long to convert", s'))
  /\ (exists s',
        position_windows 5 (mkSettings 0 0 10 10 35 2147483648 600)
                         (lp64 sample_world)
        = Some (Ok 5, s')
        /\ In (Called (SetWindowPos 14 20 0 (-2147483648) 600 SWP_NOZORDER))
              (trace s')).
Proof.
  split.
  - vm_compute. eexists. reflexivity.
  - assert (exists s',
              position_windows 5 (mkSettings 0 0 10 10 35 2147483648 600)
                               (lp64 sample_world) = Some (Ok 5, s'))
      as [s' Hrun] by (vm_compute; eexists; reflexivity).
    exists s'. split; [exact Hrun|].
    vm_compute in Hrun. injection Hrun as <-. vm_compute. find_event.
Qed.

(** ** Resize *)

Lemma restore_window_idem (w : window) :
  restore_window (restore_window w) = restore_window w.
Proof. unfold restore_window. destruct (w_restore w) eqn:E; simpl; [reflexivity | rewrite E; reflexivity]. Qed.

Lemma corner_in_restore (d : gmap Z window) (hwnd hwnd' : Z) :
  corner_in (alter restore_window hwnd d) hwnd' = corner_in d hwnd'.
Proof.
  unfold corner_in. destruct (decide (hwnd = hwnd')) as [<-|Hne].
  - rewrite lookup_alter_eq. destruct (d !! hwnd) as [w|]; simpl; [|reflexivity].
    rewrite restore_window_idem. reflexivity.
  - rewrite lookup_alter_ne by exact Hne. reflexivity.
Qed.

Lemma corner_in_place (d : gmap Z window) (hwnd hwnd' x y cx cy : Z) :
  (forall w, d !! hwnd = Some w -> w_restore w = None ->
             x = left (w_rect w) /\ y = top (w_rect w)) ->
  corner_in (alter (place_window x y cx cy) hwnd d) hwnd' = corner_in d hwnd'.
Proof.
  intros Hxy. unfold corner_in. destruct (decide (hwnd = hwnd')) as [<-|Hne].
  - rewrite lookup_alter_eq. destruct (d !! hwnd) as [w|]; simpl; [|reflexivity].
    unfold restore_window, place_window. simpl.
    destruct (w_restore w) eqn:E; [reflexivity|].
    destruct (Hxy w eq_refl E) as [-> ->]. reflexivity.
  - rewrite lookup_alter_ne by exact Hne. reflexivity.
Qed.

Lemma sized_in_restore (width height : Z) (d : gmap Z window) (hwnd hwnd' : Z) :
  sized_in width height d hwnd' ->
  sized_in width height (alter restore_window hwnd d) hwnd'.
Proof.
  intros (w & Hw & Hr & Hsize). exists w. split; [|auto].
  destruct (decide (hwnd = hwnd')) as [<-|Hne].
  - rewrite lookup_alter_eq, Hw. simpl. unfold restore_window. rewrite Hr.
    reflexivity.
  - rewrite lookup_alter_ne by exact Hne. exact Hw.
Qed.

Lemma sized_in_placed (width height : Z) (d : gmap Z window) (hwnd x y : Z)
  (w : window) :
  d !! hwnd = Some w -> w_restore w = None ->
  sized_in width height (alter (place_window x y width height) hwnd d) hwnd.
Proof.
  intros Hw Hr. unfold sized_in. rewrite lookup_alter_eq, Hw. simpl.
  eexists. split; [reflexivity|]. simpl. auto.
Qed.

Lemma sized_in_place (width height : Z) (d : gmap Z window) (hwnd hwnd' x y : Z) :
  sized_in width height d hwnd' ->
  sized_in width height (alter (place_window x y width height) hwnd d) hwnd'.
Proof.
  intros (w & Hw & Hr & Hsize). destruct (decide (hwnd = hwnd')) as [<-|Hne].
  - apply (sized_in_placed _ _ _ _ _ _ w Hw Hr).
  - exists w. rewrite lookup_alter_ne by exact Hne. auto.
Qed.

Lemma restore_window_restored (w : window) : w_restore (restore_window w) = None.
Proof. unfold restore_window. destruct (w_restore w) eqn:E; [reflexivity | exact E]. Qed.

Lemma marshal_fits (long64 : bool) (hwnd x y cx cy flags : Z) :
  fits_cell (x, y, cx, cy) ->
  marshal long64 (SetWindowPos hwnd x y cx cy flags)
  = Ok (SetWindowPos hwnd x y cx cy flags).
Proof.
  intros H.
  rewrite (marshal_convertible _ _ _ _ _ _ _ (fits_cell_convertible _ _ H)).
  destruct H as (Hx & Hy & Hcx & Hcy).
  rewrite !wrap_int_fits by assumption. reflexivity.
Qed.

(** One window of the resize loop, for a size and a corner that are passed
    unchanged. *)
Lemma resize_window_run (width height hwnd : Z) (s : world) (w : window) :
  fits_int width -> fits_int height ->
  desktop s !! hwnd = Some w ->
  fits_int (left (w_rect (restore_window w))) ->
  fits_int (top (w_rect (restore_window w))) ->
  (resize_window width height hwnd s).1 = Ok tt
  /\ corners_kept width height s (resize_window width height hwnd s).2
  /\ (forall hwnd', sized_in width height (desktop s) hwnd' ->
        sized_in width height
                 (desktop (resize_window width height hwnd s).2) hwnd')
  /\ sized_in width height
              (desktop (resize_window width height hwnd s).2) hwnd.
Proof.
  intros Hwd Hht Hw Hx Hy.
  assert (alter restore_window hwnd (desktop s) !! hwnd
          = Some (restore_window w)) as Hw1.
  { rewrite lookup_alter_eq, Hw. reflexivity. }
  assert (forall w', alter restore_window hwnd (desktop s) !! hwnd = Some w' ->
            w_restore w' = None ->
            left (w_rect (restore_window w)) = left (w_rect w')
            /\ top (w_rect (restore_window w)) = top (w_rect w')) as Hxy.
  { intros w' Hw'. rewrite Hw1 in Hw'. injection Hw' as <-. auto. }
  assert (exists s3,
            resize_window width height hwnd s = (Ok tt, s3)
            /\ faults s3 = faults s
            /\ desktop s3
               = alter (place_window (left (w_rect (restore_window w)))
                          (top (w_rect (restore_window w))) width height)
                       hwnd (alter restore_window hwnd (desktop s))
            /\ trace s3
               = trace s
                 ++ [Called (ShowWindow hwnd SW_RESTORE); Slept 50;
                     Called (GetWindowRect hwnd);
                     Called (SetWindowPos hwnd
                               (left (w_rect (restore_window w)))
                               (top (w_rect (restore_window w)))
                               width height SWP_NOZORDER)])
    as (s3 & -> & Hf & Hd & Ht).
  { unfold resize_window, bind, sleep.
    rewrite (foreign_user32 (ShowWindow hwnd SW_RESTORE)
               (ShowWindow hwnd SW_RESTORE)) by reflexivity.
    rewrite (foreign_user32 (GetWindowRect hwnd) (GetWindowRect hwnd))
      by reflexivity.
    cbv zeta. unfold current_rect. simpl desktop. rewrite Hw1.
    rewrite (foreign_user32
               (SetWindowPos hwnd (left (w_rect (restore_window w)))
                  (top (w_rect (restore_window w))) width height SWP_NOZORDER)
               (SetWindowPos hwnd (left (w_rect (restore_window w)))
                  (top (w_rect (restore_window w))) width height SWP_NOZORDER))
      by (try reflexivity; apply marshal_fits; unfold fits_cell; auto).
    eexists. split; [reflexivity|]. simpl. rewrite <- !app_assoc. auto. }
  unfold corners_kept, top_left. cbn [fst snd]. rewrite Hd.
  split; [reflexivity|]. split; [|split].
  - split; [exact Hf|]. split.
    + intros hwnd'. rewrite corner_in_place by exact Hxy.
      apply corner_in_restore.
    + eexists. split; [exact Ht|].
      repeat constructor. simpl. unfold top_left, corner_in. rewrite Hw.
      auto.
  - intros. apply sized_in_place, sized_in_restore. assumption.
  - apply (sized_in_placed _ _ _ _ _ _ (restore_window w) Hw1).
    apply restore_window_restored.
Qed.

Lemma corners_kept_trans (width height : Z) (s0 s1 s2 : world) :
  corners_kept width height s0 s1 -> corners_kept width height s1 s2 ->
  corners_kept width height s0 s2.
Proof.
  intros (Hf1 & Hc1 & evs1 & Ht1 & He1) (Hf2 & Hc2 & evs2 & Ht2 & He2).
  split; [congruence|]. split; [intros h; rewrite Hc2; apply Hc1|].
  exists (evs1 ++ evs2). split; [rewrite Ht2, Ht1, app_assoc; reflexivity|].
  apply Forall_app. split; [exact He1|].
  eapply Forall_impl; [exact He2|].
  intros [[]| |]; simpl; auto. rewrite Hc1. auto.
Qed.

Lemma present_by_corner (s s' : world) (hwnd : Z) :
  top_left s' hwnd = top_left s hwnd ->
  is_Some (desktop s !! hwnd) -> is_Some (desktop s' !! hwnd).
Proof.
  unfold top_left, corner_in. intros H [w Hw]. rewrite Hw in H.
  destruct (desktop s' !! hwnd); [eauto | discriminate].
Qed.

(** One round of the resize loop: the [try] around one window. *)
Lemma resize_try_run (width height hwnd : Z) (msg : string -> string)
  (s : world) :
  fits_int width -> fits_int height -> corners_fit s ->
  is_Some (desktop s !! hwnd) ->
  let r := try_except (resize_window width height hwnd)
                      (fun e => print (msg e)) s in
  r.1 = Ok tt
  /\ corners_kept width height s r.2
  /\ (forall hwnd', sized_in width height (desktop s) hwnd' ->
        sized_in width height (desktop r.2) hwnd')
  /\ sized_in width height (desktop r.2) hwnd.
Proof.
  intros Hwd Hht Hfit [w Hw]. cbv zeta.
  destruct (Hfit hwnd (left (w_rect (restore_window w)))
              (top (w_rect (restore_window w)))) as [Hx Hy].
  { unfold top_left, corner_in. rewrite Hw. reflexivity. }
  destruct (resize_window_run width height hwnd s w Hwd Hht Hw Hx Hy)
    as (Hok & Hk & Hs & Hnew).
  unfold try_except.
  destruct (resize_window width height hwnd s) as [[[]|e] s1]; simpl in *;
    [auto | discriminate].
Qed.

(** The whole resize loop. *)
Lemma resize_loop_run (width height : Z) (l : list (Z * string)) (s : world) :
  fits_int width -> fits_int height -> corners_fit s ->
  (forall hwnd title, In (hwnd, title) l -> is_Some (desktop s !! hwnd)) ->
  let r := for_each
             (fun '(hwnd, title) =>
                try_except (resize_window width height hwnd)
                  (fun e => print ("Error resizing " ++ title ++ ": " ++ e)%string))
             l s in
  corners_kept width height s r.2
  /\ (forall hwnd', sized_in width height (desktop s) hwnd' ->
        sized_in width height (desktop r.2) hwnd')
  /\ (forall hwnd title, In (hwnd, title) l ->
        sized_in width height (desktop r.2) hwnd).
Proof.
  intros Hwd Hht. revert s.
  induction l as [|[hwnd title] l IH]; intros s Hfit Hpresent; cbv zeta.
  - simpl. split; [|split; [auto | intros ? ? []]].
    split; [reflexivity|]. split; [reflexivity|].
    exists []. rewrite app_nil_r. split; [reflexivity | constructor].
  - simpl for_each. unfold bind.
    destruct (resize_try_run width height hwnd
                (fun e => ("Error resizing " ++ title ++ ": " ++ e)%string) s
                Hwd Hht Hfit)
      as (Hok & Hk & Hs & Hnew); [apply (Hpresent hwnd title); left; reflexivity|].
    cbv zeta in Hok, Hk, Hs, Hnew.
    destruct (try_except _ _ s) as [[[]|e] s1]; simpl in *; [|discriminate].
    destruct Hk as (Hf & Hc & Hev).
    destruct (IH s1) as (Hk' & Hs' & Hall).
    { intros h x y. unfold top_left in Hc |- *. rewrite Hc. apply Hfit. }
    { intros h t Hin. apply (present_by_corner s); [apply Hc|].
      apply (Hpresent h t). right. exact Hin. }
    cbv zeta in Hk', Hs', Hall.
    split; [eapply corners_kept_trans; [split; [exact Hf | split; [exact Hc | exact Hev]] | exact Hk']|].
    split; [intros h Hh; apply Hs', Hs, Hh|].
    intros h t [[= <- <-]|Hin]; [apply Hs', Hnew | apply (Hall h t Hin)].
Qed.

Lemma profile_window_present (s : world) (hwnd : Z) (title : string) :
  In (hwnd, title) (get_profile_windows s) -> is_Some (desktop s !! hwnd).
Proof.
  unfold get_profile_windows. intros Hin.
  apply in_map_iff in Hin as (x & [= <- <-] & Hx).
  destruct (profile_records_sound s x Hx) as (_ & Hacc & _).
  unfold is_profile_window, IsWindowVisible in Hacc.
  destruct (desktop s !! x.1.1); [eauto | discriminate].
Qed.

(** C8, as amended: for a width and a height that are passed to
    [SetWindowPos] unchanged (from -2^31 to 2^31 - 1), on a desktop whose
    corners are 32-bit coordinates, the resize action leaves the
    top-left corner of every window where it was; each placement it
    dispatches asks for the new width and height at the corner the window
    already had; and every window of the profile set ends with its old
    corner and the new size.  A window at (100,200) resized to 800x900
    ends at (100,200)-(900,1100). *)
Theorem resize_keeps_position :
  (forall (width height : Z) (s : world),
      fits_int width -> fits_int height -> corners_fit s ->
      let r := resize_all_windows width height s in
      (forall hwnd, top_left r.2 hwnd = top_left s hwnd)
      /\ (exists evs,
            trace r.2 = trace s ++ evs
            /\ forall hwnd x y cx cy flags,
                 In (Called (SetWindowPos hwnd x y cx cy flags)) evs ->
                 cx = width /\ cy = height /\ top_left s hwnd = Some (x, y))
      /\ (forall hwnd title, In (hwnd, title) (get_profile_windows s) ->
          exists x y,
            top_left s hwnd = Some (x, y)
            /\ current_rect r.2 hwnd = mkRECT x y (x + width) (y + height)))
  /\ current_rect sample_world 11 = mkRECT 100 200 400 400
  /\ current_rect (resize_all_windows 800 900 sample_world).2 11
     = mkRECT 100 200 900 1100.
Proof.
  split; [|split; vm_compute; reflexivity].
  intros width height s Hwd Hht Hfit. cbv zeta. unfold resize_all_windows.
  destruct (null (get_profile_windows s)) eqn:Hnull.
  { simpl. split; [reflexivity|].
    split; [exists []; rewrite app_nil_r; split; [reflexivity | intros ? ? ? ? ? ? []]|].
    intros hwnd title Hin. destruct (get_profile_windows s); [destruct Hin | discriminate]. }
  pose proof (resize_loop_run width height (get_profile_windows s) s
                Hwd Hht Hfit (profile_window_present s)) as Hloop.
  cbv zeta in Hloop. destruct Hloop as ((Hf & Hc & evs & Ht & Hev) & _ & Hall).
  unfold bind, ret.
  assert (forall (o : outcome unit) (s' : world),
            (match o with
             | Ok _ => (Ok (len (get_profile_windows s)), s')
             | Raise e => (@Raise Z e, s')
             end).2 = s') as Hsnd by (intros [|] ?; reflexivity).
  destruct (for_each _ _ s) as [o s1]. rewrite Hsnd. simpl in *.
  split; [exact Hc|]. split.
  - exists evs. split; [exact Ht|].
    intros hwnd x y cx cy flags Hin.
    rewrite List.Forall_forall in Hev. apply (Hev _ Hin).
  - intros hwnd title Hin.
    destruct (Hall hwnd title Hin) as (w & Hw & Hr & Hright & Hbottom).
    exists (left (w_rect w)), (top (w_rect w)).
    rewrite <- Hc. unfold top_left, corner_in, current_rect. rewrite Hw.
    unfold restore_window. rewrite Hr. split; [reflexivity|].
    destruct (w_rect w) as [l t r b]. simpl in *. congruence.
Qed.

Lemma sample_world_corners_fit : corners_fit sample_world.
Proof.
  intros hwnd x y H. unfold top_left, corner_in in H.
  destruct (desktop sample_world !! hwnd) as [w|] eqn:E; [|discriminate].
  apply elem_of_list_to_map_2 in E.
  repeat (apply elem_of_cons in E as [E|E];
          [injection E as -> ->; vm_compute in H; injection H as <- <-;
           unfold fits_int; lia|]).
  apply elem_of_nil in E. destruct E.
Qed.

Lemma resize_keeps_position_witness :
  exists x y,
    top_left sample_world 14 = Some (x, y)
    /\ current_rect (resize_all_windows 800 900 sample_world).2 14
       = mkRECT x y (x + 800) (y + 900).
Proof.
  destruct resize_keeps_position as [H _].
  destruct (H 800 900 sample_world) as (_ & _ & Hfinal).
  - unfold fits_int. lia.
  - unfold fits_int. lia.
  - exact sample_world_corners_fit.
  - apply (Hfinal 14 "DE7"). rewrite sample_world_profile_set.
    simpl. tauto.
Defined.

(** C8, as stated, fails for a width that no C int holds.  Asked for 2^31,
    the placement of the window at (100,200) carries the width -2^31.
    Asked for 2^70, the placement raises, no [SetWindowPos] is dispatched
    and the window keeps the size it had. *)
Lemma resize_width_is_converted :
  (let r := resize_all_windows 2147483648 900 sample_world in
   In (Called (SetWindowPos 11 100 200 (-2147483648) 900 SWP_NOZORDER))
      (trace r.2)
   /\ ~ In (Called (SetWindowPos 11 100 200 2147483648 900 SWP_NOZORDER))
          (trace r.2))
  /\ (let r := resize_all_windows 1180591620717411303424 900 sample_world in
      (forall hwnd x y cx cy flags,
          ~ In (Called (SetWindowPos hwnd x y cx cy flags)) (trace r.2))
      /\ current_rect r.2 11 = mkRECT 100 200 400 400).
Proof.
  cbv zeta. split; split.
  - vm_compute. find_event.
  - vm_compute. intros H.
    repeat (destruct H as [H|H]; [discriminate|]). exact H.
  - intros hwnd x y cx cy flags. vm_compute. intros H.
    repeat (destruct H as [H|H]; [discriminate|]). exact H.
  - vm_compute. reflexivity.
Qed.

(** ** Positioning dispatches the planned cells *)

Lemma enumerate_cells (cfg : settings) (cols k : Z) (l : list (Z * string)) :
  zip_with placement l (map (cell cfg cols) (seqZ k (len l)))
  = map (fun iw : Z * (Z * string) => placement iw.2 (cell cfg cols iw.1))
        (enumerate k l).
Proof.
  revert k. induction l as [|w l IH]; intros k; [reflexivity|].
  assert (seqZ k (len (w :: l)) = k :: seqZ (k + 1) (len l)) as ->.
  { unfold len. rewrite seqZ_cons by (simpl; lia). f_equal. f_equal; simpl; lia. }
  cbn [map zip_with enumerate]. rewrite IH. reflexivity.
Qed.

Lemma position_loop_trace (cfg : settings) (cols : Z)
  (l : list (Z * (Z * string))) (s : world) :
  (forall iw, In iw l -> fits_cell (cell cfg cols iw.1)) ->
  trace (for_each (position_window cfg cols) l s).2
  = trace s
    ++ concat (map (fun iw : Z * (Z * string) =>
                      placement iw.2 (cell cfg cols iw.1)) l).
Proof.
  revert s. induction l as [|[i [hwnd title]] l IH]; intros s Hl.
  - simpl. rewrite app_nil_r. reflexivity.
  - rewrite for_each_cons.
    pose proof (Hl (i, (hwnd, title)) (or_introl eq_refl)) as Hfit.
    cbn [fst] in Hfit.
    destruct (position_window_places cfg cols i hwnd title s
                (fits_cell_convertible _ _ Hfit)) as (Hok & _ & Ht).
    cbv zeta in Hok, Ht. rewrite (fits_cell_wrap _ Hfit) in Ht.
    destruct (position_window cfg cols (i, (hwnd, title)) s) as [[[]|e] s1];
      cbn [fst snd] in Hok, Ht; [|discriminate].
    rewrite IH by (intros iw Hin; apply Hl; right; exact Hin).
    rewrite Ht, <- app_assoc. reflexivity.
Qed.

(** X13: with planned cells that are passed to [SetWindowPos] unchanged,
    [position_windows] dispatches for each window of the profile set, in
    the order of the profile set, the restore, a wait of 30 ms and the
    placement on the cell the planner gave that index, and nothing else. *)
Lemma position_windows_places_cells (fuel : nat) (cfg : settings) (s : world)
  (g : grid) :
  get_profile_windows s <> [] ->
  plan_grid fuel (len (get_profile_windows s))
            (get_work_area s).1 (get_work_area s).2 cfg = Some (Ok g) ->
  (forall c, In c (cells g) -> fits_cell c) ->
  exists s',
    position_windows fuel cfg s = Some (Ok (len (get_profile_windows s)), s')
    /\ trace s'
       = trace s ++ concat (zip_with placement (get_profile_windows s) (cells g)).
Proof.
  intros Hne Hplan Hfit.
  destruct (plan_grid_cells_of _ _ _ _ _ _ Hplan) as [Hcells _].
  assert (forall iw, In iw (enumerate 0 (get_profile_windows s)) ->
                     fits_cell (cell cfg (columns g) iw.1)) as Hfit'.
  { intros [i w] Hin. cbn [fst]. apply Hfit, (cells_in cfg _ _ g i Hcells).
    apply enumerate_index_in in Hin. lia. }
  pose proof (position_loop_ok cfg (columns g)
                (enumerate 0 (get_profile_windows s)) s
                (fun iw Hin => fits_cell_convertible _ _ (Hfit' iw Hin)))
    as Hok.
  pose proof (position_loop_trace cfg (columns g)
                (enumerate 0 (get_profile_windows s)) s Hfit') as Ht.
  unfold position_windows.
  destruct (null (get_profile_windows s)) eqn:Hnull.
  { destruct (get_profile_windows s); [congruence | discriminate]. }
  destruct (get_work_area s) as [work_w work_h]. simpl in Hplan.
  rewrite Hplan. unfold bind, ret.
  destruct (for_each _ _ s) as [[[]|e] s1]; simpl in Hok, Ht; [|discriminate].
  exists s1. split; [reflexivity|].
  rewrite Ht, Hcells, enumerate_cells. reflexivity.
Qed.

(** ** Which calls the actions dispatch *)

Lemma reach_trans (ok : call -> Prop) (s1 s2 s3 : world) :
  reach ok s1 s2 -> reach ok s2 s3 -> reach ok s1 s3.
Proof.
  induction 1 as [|? ? ? IH|? ? ? ? IH|? ? ? ? IH|? ? ? Hc ? IH]; intros H3.
  - exact H3.
  - apply reach_tick, IH, H3.
  - eapply reach_slept, IH, H3.
  - eapply reach_printed, IH, H3.
  - eapply reach_called; [exact Hc | apply IH, H3].
Qed.

Lemma reach_weaken (ok ok' : call -> Prop) (s s' : world) :
  (forall c, ok c -> ok' c) -> reach ok s s' -> reach ok' s s'.
Proof.
  intros Hok. induction 1.
  - apply reach_refl.
  - apply reach_tick; assumption.
  - eapply reach_slept; eassumption.
  - eapply reach_printed; eassumption.
  - eapply reach_called; [apply Hok|]; eassumption.
Qed.

Lemma within_ret {A} (ok : call -> Prop) (a : A) : within ok (ret a).
Proof. intros s. apply reach_refl. Qed.

Lemma within_bind {A B} (ok : call -> Prop) (m : M A) (k : A -> M B) :
  within ok m -> (forall a, within ok (k a)) -> within ok (bind m k).
Proof.
  intros Hm Hk s. unfold bind. specialize (Hm s).
  destruct (m s) as [[a|e] s1]; simpl in *; [|exact Hm].
  eapply reach_trans; [exact Hm | apply Hk].
Qed.

Lemma within_try (ok : call -> Prop) (body : M unit)
  (handler : string -> M unit) :
  within ok body -> (forall e, within ok (handler e)) ->
  within ok (try_except body handler).
Proof.
  intros Hb Hh s. unfold try_except. specialize (Hb s).
  destruct (body s) as [[[]|e] s1]; simpl in *; [exact Hb|].
  eapply reach_trans; [exact Hb | apply Hh].
Qed.

Lemma within_for_each {A} (ok : call -> Prop) (f : A -> M unit) (l : list A) :
  (forall x, In x l -> within ok (f x)) -> within ok (for_each f l).
Proof.
  induction l as [|x l IH]; intros Hf; simpl; [apply within_ret|].
  apply within_bind; [apply Hf; left; reflexivity|].
  intros _. apply IH. intros y Hy. apply Hf. right. exact Hy.
Qed.

Lemma within_repeat_n (ok : call -> Prop) (n : nat) (m : M unit) :
  within ok m -> within ok (repeat_n n m).
Proof.
  intros Hm. induction n as [|n IH]; simpl; [apply within_ret|].
  apply within_bind; [exact Hm | intros _; exact IH].
Qed.

(** What a foreign call dispatches is the call as it was converted. *)
Lemma within_foreign (ok : call -> Prop) (c : call) :
  (forall long64 c', marshal long64 c = Ok c' -> ok c') ->
  within ok (foreign c).
Proof.
  intros Hc s. unfold foreign.
  destruct (marshal (long64 s) c) as [c'|e] eqn:Hm;
    [|apply reach_tick, reach_refl].
  destruct (if from_keyboard c then faults s (clock s) else None); simpl.
  - apply reach_tick, reach_refl.
  - apply reach_tick. eapply reach_called; [eapply Hc, Hm|].
    apply reach_refl.
Qed.

Lemma within_foreign_plain (ok : call -> Prop) (c : call) :
  (forall long64, marshal long64 c = Ok c) -> ok c -> within ok (foreign c).
Proof.
  intros Hm Hc. apply within_foreign. intros b c'. rewrite Hm.
  intros [= <-]. exact Hc.
Qed.

Lemma marshal_places (long64 : bool) (hwnd x y cx cy flags : Z) (c' : call) :
  marshal long64 (SetWindowPos hwnd x y cx cy flags) = Ok c' ->
  exists x' y',
    c' = SetWindowPos hwnd x' y' (wrap_int cx) (wrap_int cy) flags.
Proof.
  destruct (convertible_cell long64 (x, y, cx, cy)) eqn:H.
  - rewrite (marshal_convertible _ _ _ _ _ _ _ H). intros [= <-]. eauto.
  - destruct (marshal_not_convertible _ hwnd x y cx cy flags H) as [e ->].
    discriminate.
Qed.

Lemma within_sleep (ok : call -> Prop) (ms : Z) : within ok (sleep ms).
Proof. intros s. eapply reach_slept, reach_refl. Qed.

Lemma within_print (ok : call -> Prop) (msg : string) : within ok (print msg).
Proof. intros s. eapply reach_printed, reach_refl. Qed.

Lemma within_lift {A} (ok : call -> Prop) (o : outcome A) : within ok (lift o).
Proof. intros s. apply reach_refl. Qed.

Lemma handle_in (hwnd : Z) (title : string) (l : list (Z * string)) :
  In (hwnd, title) l -> In hwnd (handles l).
Proof. intros H. apply in_map_iff. exists (hwnd, title). auto. Qed.

Ltac within_steps :=
  repeat first
    [ apply within_bind; [|intros ?]
    | apply within_sleep | apply within_print | apply within_ret
    | apply within_lift | apply within_repeat_n
    | apply within_foreign_plain; [intros ?; reflexivity|] ].

Lemma zoom_window_within (ws : list Z) (steps : nat) (hwnd : Z) :
  In hwnd ws -> within (zoom_calls ws) (zoom_window steps hwnd).
Proof.
  intros Hin. unfold zoom_window, zoom_calls, restores, foregrounds, presses.
  within_steps; simpl; eauto 8.
Qed.

Lemma resize_window_within (width height : Z) (ws : list Z) (hwnd : Z) :
  In hwnd ws -> within (resize_calls width height ws)
                       (resize_window width height hwnd).
Proof.
  intros Hin. unfold resize_window, resize_calls, restores, reads_rect, places.
  within_steps; try (simpl; eauto 8).
  intros s. apply within_foreign. intros b c' Hc'.
  apply marshal_places in Hc' as (x' & y' & ->). eauto 10.
Qed.

Lemma open_url_window_within (url : string) (ws : list Z) (hwnd : Z) :
  In hwnd ws -> within (open_url_calls url ws)
                       (open_url_window (normalize_url url) hwnd).
Proof.
  intros Hin. unfold open_url_window, open_url_calls, restores, foregrounds,
    presses.
  within_steps; simpl; eauto 8.
Qed.

Lemma position_window_within (cfg : settings) (cols : Z) (ws : list Z)
  (iw : Z * (Z * string)) :
  In iw.2.1 ws -> within (position_calls cfg ws) (position_window cfg cols iw).
Proof.
  destruct iw as [i [hwnd title]]. simpl. intros Hin.
  unfold position_window, cell, position_calls, restores, places.
  within_steps; try (simpl; eauto 10).
  apply within_foreign. intros b c' Hc'.
  apply marshal_places in Hc' as (x' & y' & ->). eauto 10.
Qed.

Lemma enumerate_in {A} (k i : Z) (x : A) (l : list A) :
  In (i, x) (enumerate k l) -> In x l.
Proof.
  revert k. induction l as [|y l IH]; intros k; simpl; [auto|].
  intros [[= _ ->]|H]; [left; reflexivity | right; eapply IH, H].
Qed.

Lemma apply_zoom_within (zoom_percent : Z) (s : world) :
  reach (zoom_calls (handles (get_profile_windows s))) s
        (apply_zoom_to_all zoom_percent s).2.
Proof.
  unfold apply_zoom_to_all.
  destruct (null (get_profile_windows s)); [apply reach_refl|].
  apply within_bind; [apply within_lift|]. intros steps.
  apply within_bind; [|intros; apply within_ret].
  apply within_for_each. intros [hwnd title] Hin.
  apply within_try; [|intros; apply within_print].
  apply zoom_window_within. eapply handle_in, Hin.
Qed.

Lemma resize_within (width height : Z) (s : world) :
  reach (resize_calls width height (handles (get_profile_windows s))) s
        (resize_all_windows width height s).2.
Proof.
  unfold resize_all_windows.
  destruct (null (get_profile_windows s)); [apply reach_refl|].
  apply within_bind; [|intros; apply within_ret].
  apply within_for_each. intros [hwnd title] Hin.
  apply within_try; [|intros; apply within_print].
  apply resize_window_within. eapply handle_in, Hin.
Qed.

Lemma position_within (fuel : nat) (cfg : settings) (s : world)
  (r : outcome Z * world) :
  position_windows fuel cfg s = Some r ->
  reach (position_calls cfg (handles (get_profile_windows s))) s r.2.
Proof.
  unfold position_windows.
  destruct (null (get_profile_windows s)); [intros [= <-]; apply reach_refl|].
  destruct (get_work_area s) as [work_w work_h].
  destruct (plan_grid fuel _ work_w work_h cfg) as [[g|e]|]; [| |discriminate].
  - intros [= <-]. apply within_bind; [|intros; apply within_ret].
    apply within_for_each. intros [i [hwnd title]] Hin.
    apply position_window_within. simpl.
    eapply handle_in, enumerate_in, Hin.
  - intros [= <-]. apply reach_refl.
Qed.

(** What a reached world keeps, whatever the calls. *)
Lemma effect_identity (c : call) (d : gmap Z window) (hwnd : Z) :
  identity <$> effect c d !! hwnd = identity <$> d !! hwnd.
Proof.
  destruct c as [h cmd|h|h|h x y cx cy flags|k|t]; simpl; try reflexivity.
  - destruct (cmd =? SW_RESTORE); [|reflexivity].
    destruct (decide (h = hwnd)) as [<-|Hne];
      [rewrite lookup_alter_eq | rewrite lookup_alter_ne by exact Hne; reflexivity].
    destruct (d !! h) as [w|]; simpl; [|reflexivity].
    unfold restore_window. destruct (w_restore w); reflexivity.
  - destruct (decide (h = hwnd)) as [<-|Hne];
      [rewrite lookup_alter_eq | rewrite lookup_alter_ne by exact Hne; reflexivity].
    destruct (d !! h) as [w|]; reflexivity.
Qed.


Lemma reach_identity (ok : call -> Prop) (s s' : world) :
  reach ok s s' ->
  z_order s' = z_order s /\ screen_w s' = screen_w s
  /\ screen_h s' = screen_h s /\ work_rect s' = work_rect s
  /\ faults s' = faults s
  /\ forall hwnd, identity <$> desktop s' !! hwnd = identity <$> desktop s !! hwnd.
Proof.
  induction 1 as [s|s s' _ IH|ms s s' _ IH|msg s s' _ IH|c s s' _ _ IH];
    [repeat split; reflexivity|exact IH|exact IH|exact IH|].
  destruct IH as (? & ? & ? & ? & ? & Hid). repeat split; try assumption.
  intros hwnd. rewrite Hid. simpl. apply effect_identity.
Qed.

Lemma identity_readers (s s' : world) (hwnd : Z) :
  identity <$> desktop s' !! hwnd = identity <$> desktop s !! hwnd ->
  IsWindowVisible s' hwnd = IsWindowVisible s hwnd
  /\ get_window_title s' hwnd = get_window_title s hwnd
  /\ get_window_class s' hwnd = get_window_class s hwnd
  /\ get_process_creation_time s' hwnd = get_process_creation_time s hwnd.
Proof.
  unfold IsWindowVisible, get_window_title, get_window_class,
    get_process_creation_time, identity.
  destruct (desktop s' !! hwnd) as [w'|], (desktop s !! hwnd) as [w|]; simpl;
    intros H; try discriminate; [|auto].
  injection H as -> -> -> ->. auto.
Qed.

Lemma same_identity_same_profile_set (s s' : world) :
  z_order s' = z_order s ->
  (forall hwnd, identity <$> desktop s' !! hwnd = identity <$> desktop s !! hwnd) ->
  get_profile_windows s' = get_profile_windows s.
Proof.
  intros Hz Hid.
  assert (forall hwnd, is_profile_window s' hwnd = is_profile_window s hwnd) as Hacc.
  { intros hwnd. destruct (identity_readers s s' hwnd (Hid hwnd)) as (Hv & Ht & Hc & _).
    unfold is_profile_window. rewrite Hv, Ht, Hc. reflexivity. }
  unfold get_profile_windows, profile_records. rewrite Hz. f_equal. f_equal.
  clear Hz. induction (z_order s) as [|hwnd l IH]; [reflexivity|].
  rewrite !filter_cons, Hacc.
  destruct (identity_readers s s' hwnd (Hid hwnd)) as (_ & Ht & _ & Hc).
  destruct (decide (is_profile_window s hwnd = true)); simpl;
    rewrite ?Ht, ?Hc, IH; reflexivity.
Qed.

Lemma reach_profile_set (ok : call -> Prop) (s s' : world) :
  reach ok s s' ->
  get_profile_windows s' = get_profile_windows s
  /\ get_work_area s' = get_work_area s
  /\ (no_faults s -> no_faults s').
Proof.
  intros H. destruct (reach_identity ok s s' H) as (Hz & Hw & Hh & Hr & Hf & Hid).
  split; [apply same_identity_same_profile_set; assumption|].
  split; [unfold get_work_area; rewrite Hw, Hh, Hr; reflexivity|].
  unfold no_faults. rewrite Hf. auto.
Qed.

(** The calls recorded on the way all satisfy [ok]. *)
Lemma reach_trace (ok : call -> Prop) (s s' : world) :
  reach ok s s' ->
  exists evs, trace s' = trace s ++ evs
              /\ forall c, In (Called c) evs -> ok c.
Proof.
  induction 1 as [s|s s' _ IH|ms s s' _ IH|msg s s' _ IH|c s s' Hc _ IH].
  - exists []. rewrite app_nil_r. split; [reflexivity | intros ? []].
  - exact IH.
  - destruct IH as (evs & Ht & Hev). exists (Slept ms :: evs).
    split; [rewrite Ht; simpl; rewrite <- app_assoc; reflexivity|].
    intros c [?|Hin]; [discriminate | auto].
  - destruct IH as (evs & Ht & Hev). exists (Printed msg :: evs).
    split; [rewrite Ht; simpl; rewrite <- app_assoc; reflexivity|].
    intros c [?|Hin]; [discriminate | auto].
  - destruct IH as (evs & Ht & Hev). exists (Called c :: evs).
    split; [rewrite Ht; simpl; rewrite <- app_assoc; reflexivity|].
    intros c' [[= <-]|Hin]; [exact Hc | auto].
Qed.

(** Calls addressed to the windows of [ws] leave the other windows alone. *)
Lemma effect_other (c : call) (d : gmap Z window) (hwnd : Z) :
  call_target c <> Some hwnd -> effect c d !! hwnd = d !! hwnd.
Proof.
  destruct c as [h cmd|h|h|h x y cx cy flags|k|t]; simpl; try reflexivity;
    intros Hne.
  - destruct (cmd =? SW_RESTORE); [|reflexivity].
    apply lookup_alter_ne. congruence.
  - apply lookup_alter_ne. congruence.
Qed.

Lemma reach_frame (ok : call -> Prop) (ws : list Z) (s s' : world) :
  (forall c hwnd, ok c -> call_target c = Some hwnd -> In hwnd ws) ->
  reach ok s s' ->
  forall hwnd, ~ In hwnd ws -> desktop s' !! hwnd = desktop s !! hwnd.
Proof.
  intros Hok. induction 1 as [s|s s' _ IH|ms s s' _ IH|msg s s' _ IH|c s s' Hc _ IH];
    intros hwnd Hout; [reflexivity|apply IH, Hout..|].
  rewrite (IH hwnd Hout). simpl. apply effect_other.
  intros Ht. apply Hout. eapply Hok; eassumption.
Qed.

(** Calls other than [SetWindowPos] at most restore a window. *)
Lemma reach_restore_only (ok : call -> Prop) (s s' : world) :
  (forall c hwnd x y cx cy flags,
      ok c -> c <> SetWindowPos hwnd x y cx cy flags) ->
  reach ok s s' ->
  forall hwnd, desktop s' !! hwnd = desktop s !! hwnd
               \/ desktop s' !! hwnd = restore_window <$> desktop s !! hwnd.
Proof.
  intros Hok. induction 1 as [s|s s' _ IH|ms s s' _ IH|msg s s' _ IH|c s s' Hc _ IH];
    intros hwnd; [left; reflexivity|apply IH..|].
  assert (effect c (desktop s) !! hwnd = desktop s !! hwnd
          \/ effect c (desktop s) !! hwnd = restore_window <$> desktop s !! hwnd)
    as Hstep.
  { destruct c as [h cmd|h|h|h x y cx cy flags|k|t]; simpl; auto.
    - destruct (cmd =? SW_RESTORE); [|auto].
      destruct (decide (h = hwnd)) as [<-|Hne];
        [right; apply lookup_alter_eq | left; apply lookup_alter_ne, Hne].
    - exfalso. eapply Hok; [exact Hc | reflexivity]. }
  destruct (IH hwnd) as [E|E]; rewrite E; simpl.
  - exact Hstep.
  - right. destruct Hstep as [->| ->]; [reflexivity|].
    destruct (desktop s !! hwnd) as [w|]; simpl; [|reflexivity].
    rewrite restore_window_idem. reflexivity.
Qed.

Lemma open_url_within (url : string) (apply_zoom_after : bool)
  (zoom_percent : Z) (s : world) :
  reach (fun c => open_url_calls url (handles (get_profile_windows s)) c
                  \/ zoom_calls (handles (get_profile_windows s)) c)
        s (open_url_in_all url apply_zoom_after zoom_percent s).2.
Proof.
  unfold open_url_in_all.
  destruct (null (get_profile_windows s)); [apply reach_refl|].
  destruct (_ || _); [apply reach_refl|].
  unfold bind at 1.
  assert (reach (open_url_calls url (handles (get_profile_windows s))) s
            (for_each
               (fun '(hwnd, title) =>
                  try_except (open_url_window (normalize_url url) hwnd)
                    (fun e => print ("Error opening URL in " ++ title ++ ": " ++ e)%string))
               (get_profile_windows s) s).2) as Hloop.
  { apply within_for_each. intros [hwnd title] Hin.
    apply within_try; [|intros; apply within_print].
    apply open_url_window_within. eapply handle_in, Hin. }
  destruct (for_each _ _ s) as [[[]|e] s1]; simpl in Hloop |- *;
    [|eapply reach_weaken; [|exact Hloop]; auto].
  eapply reach_trans; [eapply reach_weaken; [|exact Hloop]; auto|].
  destruct apply_zoom_after; [|apply reach_refl].
  unfold bind, sleep, ret.
  assert (reach (open_url_calls url (handles (get_profile_windows s))) s
            (record (Slept 2000) s1)) as Hslept
    by (eapply reach_trans; [exact Hloop | eapply reach_slept, reach_refl]).
  destruct (reach_profile_set _ _ _ Hslept) as (Hset & _).
  pose proof (apply_zoom_within zoom_percent (record (Slept 2000) s1)) as Hzoom.
  rewrite Hset in Hzoom.
  eapply reach_slept.
  destruct (apply_zoom_to_all zoom_percent (record (Slept 2000) s1))
    as [[k|e] s2]; simpl in *;
    (eapply reach_weaken; [|exact Hzoom]; auto).
Qed.

(** X1: whatever calls raise, each action dispatches only calls of its own
    kind, addressed to windows of the profile set: position restores and
    places at the configured size; resize restores, reads the rectangle and
    places at the requested size; zoom restores, foregrounds and presses
    ctrl+0 and ctrl+-; navigate restores, foregrounds, presses ctrl+t and
    enter and types the normalized URL, plus the calls of zoom.  The size
    of a placement is the one [SetWindowPos] receives: the low 32 bits of
    the size asked for. *)
Theorem actions_dispatch_only_their_calls (s : world) :
  let ws := handles (get_profile_windows s) in
  (forall fuel cfg r, position_windows fuel cfg s = Some r ->
     exists evs, trace r.2 = trace s ++ evs
                 /\ forall c, In (Called c) evs -> position_calls cfg ws c)
  /\ (forall width height,
        exists evs, trace (resize_all_windows width height s).2 = trace s ++ evs
                    /\ forall c, In (Called c) evs ->
                                 resize_calls width height ws c)
  /\ (forall zoom_percent,
        exists evs, trace (apply_zoom_to_all zoom_percent s).2 = trace s ++ evs
                    /\ forall c, In (Called c) evs -> zoom_calls ws c)
  /\ (forall url apply_zoom_after zoom_percent,
        exists evs,
          trace (open_url_in_all url apply_zoom_after zoom_percent s).2
          = trace s ++ evs
          /\ forall c, In (Called c) evs ->
                       open_url_calls url ws c \/ zoom_calls ws c).
Proof.
  cbv zeta. split; [|split; [|split]].
  - intros fuel cfg r H. eapply reach_trace, position_within, H.
  - intros width height. eapply reach_trace, resize_within.
  - intros zoom_percent. eapply reach_trace, apply_zoom_within.
  - intros url az zp. eapply reach_trace, open_url_within.
Qed.

Lemma actions_dispatch_only_their_calls_witness :
  exists s' evs,
    position_windows 2 DEFAULT_SETTINGS sample_world = Some (Ok 5, s')
    /\ trace s' = trace sample_world ++ evs
    /\ In (Called (SetWindowPos 12 2240 0 550 600 SWP_NOZORDER)) evs
    /\ forall c, In (Called c) evs ->
                 position_calls DEFAULT_SETTINGS
                   (handles (get_profile_windows sample_world)) c.
Proof.
  assert (exists s', position_windows 2 DEFAULT_SETTINGS sample_world
                     = Some (Ok 5, s')) as [s' Hrun]
    by (vm_compute; eexists; reflexivity).
  destruct (actions_dispatch_only_their_calls sample_world) as (Hpos & _).
  destruct (Hpos 2%nat DEFAULT_SETTINGS _ Hrun) as (evs & Ht & Hev).
  exists s', evs. split; [exact Hrun|]. split; [exact Ht|].
  split; [|exact Hev].
  vm_compute in Hrun. injection Hrun as <-. vm_compute in Ht. rewrite <- Ht.
  find_event.
Defined.

Lemma target_in_profile_set (ws : list Z) (c : call) (hwnd : Z) :
  (restores ws c \/ foregrounds ws c \/ reads_rect ws c
   \/ (exists width height, places width height ws c)
   \/ call_target c = None) ->
  call_target c = Some hwnd -> In hwnd ws.
Proof.
  intros [(h & Hin & ->)|[(h & Hin & ->)|[(h & Hin & ->)|
          [(width & height & h & x & y & Hin & ->)|Hnone]]]]; simpl;
    intros Ht; try (injection Ht as <-; exact Hin).
  congruence.
Qed.

Lemma position_calls_target (cfg : settings) (ws : list Z) (c : call) (hwnd : Z) :
  position_calls cfg ws c -> call_target c = Some hwnd -> In hwnd ws.
Proof.
  intros [H|H]; apply target_in_profile_set; eauto 10.
Qed.

Lemma resize_calls_target (width height : Z) (ws : list Z) (c : call) (hwnd : Z) :
  resize_calls width height ws c -> call_target c = Some hwnd -> In hwnd ws.
Proof.
  intros [H|[H|H]]; apply target_in_profile_set; eauto 10.
Qed.

Lemma zoom_calls_target (ws : list Z) (c : call) (hwnd : Z) :
  zoom_calls ws c -> call_target c = Some hwnd -> In hwnd ws.
Proof.
  intros [H|[H|(k & _ & ->)]]; apply target_in_profile_set; auto.
Qed.

Lemma open_url_calls_target (url : string) (ws : list Z) (c : call) (hwnd : Z) :
  open_url_calls url ws c -> call_target c = Some hwnd -> In hwnd ws.
Proof.
  intros [H|[H|[(k & _ & ->)| ->]]]; apply target_in_profile_set; auto.
Qed.

(** X2: a window that is not in the profile set is left exactly as it was
    by each of the four actions, whatever calls raise. *)
Theorem actions_leave_other_windows (s : world) (hwnd : Z) :
  ~ In hwnd (handles (get_profile_windows s)) ->
  (forall fuel cfg r, position_windows fuel cfg s = Some r ->
     desktop r.2 !! hwnd = desktop s !! hwnd)
  /\ (forall width height,
        desktop (resize_all_windows width height s).2 !! hwnd
        = desktop s !! hwnd)
  /\ (forall zoom_percent,
        desktop (apply_zoom_to_all zoom_percent s).2 !! hwnd
        = desktop s !! hwnd)
  /\ (forall url apply_zoom_after zoom_percent,
        desktop (open_url_in_all url apply_zoom_after zoom_percent s).2 !! hwnd
        = desktop s !! hwnd).
Proof.
  intros Hout. split; [|split; [|split]].
  - intros fuel cfg r H.
    eapply reach_frame; [|eapply position_within, H|exact Hout].
    intros c h. apply position_calls_target.
  - intros width height.
    eapply reach_frame; [|apply resize_within|exact Hout].
    intros c h. apply resize_calls_target.
  - intros zoom_percent.
    eapply reach_frame; [|apply apply_zoom_within|exact Hout].
    intros c h. apply zoom_calls_target.
  - intros url az zp.
    eapply reach_frame; [|apply open_url_within|exact Hout].
    intros c h [H|H]; [eapply open_url_calls_target | eapply zoom_calls_target];
      exact H.
Qed.

Lemma actions_leave_other_windows_witness :
  desktop (resize_all_windows 800 900 sample_world).2 !! 13
  = desktop sample_world !! 13.
Proof.
  destruct (actions_leave_other_windows sample_world 13) as (_ & Hresize & _).
  - vm_compute. intuition discriminate.
  - apply Hresize.
Defined.

(** X4: zoom and navigate never move or resize a window: afterwards every
    window is as it was or, if it was minimized, restored. *)
Theorem zoom_and_navigate_never_move (s : world) (hwnd : Z) (w : window) :
  desktop s !! hwnd = Some w ->
  (forall zoom_percent,
      let d := desktop (apply_zoom_to_all zoom_percent s).2 in
      d !! hwnd = Some w \/ d !! hwnd = Some (restore_window w))
  /\ (forall url apply_zoom_after zoom_percent,
        let d := desktop (open_url_in_all url apply_zoom_after zoom_percent s).2 in
        d !! hwnd = Some w \/ d !! hwnd = Some (restore_window w)).
Proof.
  intros Hw.
  assert (forall ws c h x y cx cy flags,
            zoom_calls ws c -> c <> SetWindowPos h x y cx cy flags) as Hzoom.
  { intros ws c h x y cx cy flags [(? & _ & ->)|[(? & _ & ->)|(? & _ & ->)]];
      discriminate. }
  assert (forall url ws c h x y cx cy flags,
            open_url_calls url ws c -> c <> SetWindowPos h x y cx cy flags) as Hnav.
  { intros url ws c h x y cx cy flags
      [(? & _ & ->)|[(? & _ & ->)|[(? & _ & ->)| ->]]]; discriminate. }
  split.
  - intros zoom_percent. cbv zeta. rewrite <- Hw.
    change (Some (restore_window w)) with (restore_window <$> Some w).
    rewrite <- Hw. eapply reach_restore_only; [|apply apply_zoom_within].
    intros c h x y cx cy flags. apply Hzoom.
  - intros url az zp. cbv zeta. rewrite <- Hw.
    change (Some (restore_window w)) with (restore_window <$> Some w).
    rewrite <- Hw. eapply reach_restore_only; [|apply open_url_within].
    intros c h x y cx cy flags [H|H]; [eapply Hnav | eapply Hzoom]; exact H.
Qed.

Lemma zoom_and_navigate_never_move_witness :
  let d := desktop (apply_zoom_to_all 50 sample_world).2 in
  d !! 14 = Some (mkWindow true "DE7" "Chrome_WidgetWin_1" (Some (0, 4))
                    (mkRECT (-32000) (-32000) (-31840) (-31972))
                    (Some (mkRECT 40 50 640 450)))
  \/ d !! 14 = Some (mkWindow true "DE7" "Chrome_WidgetWin_1" (Some (0, 4))
                       (mkRECT 40 50 640 450) None).
Proof.
  destruct (zoom_and_navigate_never_move sample_world 14
              (mkWindow true "DE7" "Chrome_WidgetWin_1" (Some (0, 4))
                 (mkRECT (-32000) (-32000) (-31840) (-31972))
                 (Some (mkRECT 40 50 640 450)))) as (Hzoom & _).
  - reflexivity.
  - exact (Hzoom 50).
Defined.

(** ** What is dispatched when no call raises *)

Lemma runs_ret : runs (ret tt) [].
Proof. intros s H. simpl. rewrite app_nil_r. auto. Qed.

Lemma runs_bind (m k : M unit) (e1 e2 : list event) :
  runs m e1 -> runs k e2 -> runs (m ;; k) (e1 ++ e2).
Proof.
  intros Hm Hk s H. unfold bind. destruct (Hm s H) as (Hok & Ht & Hnf).
  destruct (m s) as [[[]|e] s1]; simpl in *; [|discriminate].
  destruct (Hk s1 Hnf) as (Hok' & Ht' & Hnf').
  rewrite Ht', Ht, app_assoc. auto.
Qed.

Lemma runs_foreign (c : call) :
  (forall long64, marshal long64 c = Ok c) -> runs (foreign c) [Called c].
Proof.
  intros Hm s H. unfold foreign. rewrite Hm, (H (clock s)).
  destruct (from_keyboard c); simpl; auto.
Qed.

Lemma runs_sleep (ms : Z) : runs (sleep ms) [Slept ms].
Proof. intros s H. simpl. auto. Qed.

Lemma runs_repeat_n (n : nat) (m : M unit) (evs : list event) :
  runs m evs -> runs (repeat_n n m) (concat (replicate n evs)).
Proof.
  intros Hm. induction n as [|n IH]; simpl; [apply runs_ret|].
  apply runs_bind; assumption.
Qed.

Lemma runs_try (body : M unit) (handler : string -> M unit)
  (evs : list event) :
  runs body evs -> runs (try_except body handler) evs.
Proof.
  intros Hb s H. unfold try_except. destruct (Hb s H) as (Hok & Ht & Hnf).
  destruct (body s) as [[[]|e] s1]; simpl in *; [auto | discriminate].
Qed.

Lemma runs_for_each {A} (f : A -> M unit) (evs : A -> list event)
  (l : list A) :
  (forall x, In x l -> runs (f x) (evs x)) ->
  runs (for_each f l) (concat (map evs l)).
Proof.
  induction l as [|x l IH]; intros Hf; simpl; [apply runs_ret|].
  apply runs_bind; [apply Hf; left; reflexivity|].
  apply IH. intros y Hy. apply Hf. right. exact Hy.
Qed.

Lemma zoom_window_runs (steps : nat) (hwnd : Z) :
  runs (zoom_window steps hwnd) (zoom_events steps hwnd).
Proof.
  unfold zoom_window, zoom_events.
  change [Called (ShowWindow hwnd SW_RESTORE); Called (SetForegroundWindow hwnd);
          Slept 150; Called (press_and_release "ctrl+0"); Slept 80]
    with ([Called (ShowWindow hwnd SW_RESTORE)]
          ++ [Called (SetForegroundWindow hwnd)] ++ [Slept 150]
          ++ [Called (press_and_release "ctrl+0")] ++ [Slept 80]).
  rewrite <- !app_assoc.
  repeat (apply runs_bind;
          [first [apply runs_foreign; intros ?; reflexivity
                 | apply runs_sleep]|]).
  apply runs_repeat_n.
  change [Called (press_and_release "ctrl+-"); Slept 80]
    with ([Called (press_and_release "ctrl+-")] ++ [Slept 80]).
  apply runs_bind;
    [apply runs_foreign; intros ?; reflexivity | apply runs_sleep].
Qed.


Lemma zoom_loop_runs (steps : nat) (l : list (Z * string)) :
  runs (for_each
          (fun '(hwnd, title) =>
             try_except (zoom_window steps hwnd)
               (fun e => print ("Error zooming " ++ title ++ ": " ++ e)%string))
          l)
       (concat (map (fun w : Z * string => zoom_events steps w.1) l)).
Proof.
  apply runs_for_each. intros [hwnd title] _. apply runs_try, zoom_window_runs.
Qed.

Lemma apply_zoom_trace (zoom_percent : Z) (steps : nat) (s : world) :
  no_faults s -> steps_for zoom_percent = Ok steps ->
  trace (apply_zoom_to_all zoom_percent s).2
  = trace s
    ++ concat (map (fun w : Z * string => zoom_events steps w.1)
                   (get_profile_windows s)).
Proof.
  intros Hnf Hsteps. unfold apply_zoom_to_all.
  destruct (get_profile_windows s) as [|w l] eqn:Hw.
  { simpl. rewrite app_nil_r. reflexivity. }
  cbn [null]. rewrite Hsteps. unfold bind at 1, lift. unfold bind, ret.
  destruct (zoom_loop_runs steps (w :: l) s Hnf) as (Hok & Ht & _).
  destruct (for_each _ (w :: l) s) as [[[]|e] s1]; simpl in *;
    [exact Ht | discriminate].
Qed.

(** X5: when no call raises, zoom sends to each window of the profile set,
    oldest first, the restore, the foregrounding, ctrl+0 and then ctrl+-
    exactly as many times as the table says, with the fixed waits, and
    nothing else. *)
Theorem zoom_dispatches_reset_then_steps (zoom_percent : Z) (s : world) :
  no_faults s ->
  exists steps,
    steps_for zoom_percent = Ok steps
    /\ trace (apply_zoom_to_all zoom_percent s).2
       = trace s
         ++ concat (map (fun w : Z * string => zoom_events steps w.1)
                        (get_profile_windows s)).
Proof.
  intros Hnf. destruct (steps_for_ok zoom_percent) as (steps & Hsteps).
  exists steps. split; [exact Hsteps | apply apply_zoom_trace; assumption].
Qed.

Lemma zoom_dispatches_reset_then_steps_witness :
  exists steps,
    steps_for 35 = Ok steps
    /\ trace (apply_zoom_to_all 35 sample_world).2
       = trace sample_world
         ++ concat (map (fun w : Z * string => zoom_events steps w.1)
                        (get_profile_windows sample_world)).
Proof.
  apply (zoom_dispatches_reset_then_steps 35 sample_world).
  intros k. reflexivity.
Defined.





(** ** More on the grid *)

(** The loop adds no column beyond the first count that is enough. *)
Lemma grow_cols_minimal (fuel : nat) (cols rows num_windows c : Z) :
  grow_cols fuel cols rows num_windows = Some c ->
  c = cols \/ (cols < c /\ (c - 1) * rows < num_windows).
Proof.
  revert cols. induction fuel as [|fuel IH]; intros cols; simpl;
    destruct (Z.ltb_spec (cols * rows) num_windows) as [Hlt|Hge]; intros H;
    try discriminate; try (injection H as <-; auto).
  destruct (IH _ H) as [->|[Hc Hmin]].
  - right. split; [lia|]. replace (cols + 1 - 1) with cols by lia. exact Hlt.
  - right. split; [lia | exact Hmin].
Qed.

Lemma ceil_div_spec (n r : Z) :
  0 < r -> n <= (n + r - 1) / r * r /\ ((n + r - 1) / r - 1) * r < n.
Proof.
  intros Hr. pose proof (Z.div_mod (n + r - 1) r ltac:(lia)) as Hdm.
  pose proof (Z.mod_pos_bound (n + r - 1) r Hr) as Hb. nia.
Qed.

Lemma grow_cols_closed_form (fuel : nat) (cols rows num_windows c : Z) :
  1 <= rows ->
  grow_cols fuel cols rows num_windows = Some c ->
  c = Z.max cols ((num_windows + rows - 1) / rows).
Proof.
  intros Hrows H.
  destruct (grow_cols_enough_cells _ _ _ _ _ H) as [Hle Hprod].
  destruct (ceil_div_spec num_windows rows ltac:(lia)) as [Hq1 Hq2].
  destruct (grow_cols_minimal _ _ _ _ _ H) as [->|[Hlt Hmin]]; nia.
Qed.

(** The starting size of one grid dimension. *)
Lemma auto_size_value (n area pitch : Z) :
  0 < pitch ->
  auto_size n area pitch = Ok (if n =? 0 then Z.max 1 (area / pitch) else n).
Proof.
  intros Hp. unfold auto_size, floordiv.
  destruct (n =? 0); [|reflexivity].
  destruct (Z.eqb_spec pitch 0); [lia | reflexivity].
Qed.

(** X7: with a positive pitch and a rows value that is not negative, the
    planner keeps the starting rows and ends with
    max(starting columns, ceil(count / rows)) columns: it adds columns
    only, and no more than the count needs. *)
Theorem plan_grid_columns_closed_form (count work_w work_h : Z)
  (cfg : settings) :
  1 <= count ->
  0 < window_width cfg + h_gap cfg -> 0 < window_height cfg + v_gap cfg ->
  0 <= grid_rows cfg ->
  let cols0 := if grid_cols cfg =? 0
               then Z.max 1 (work_w / (window_width cfg + h_gap cfg))
               else grid_cols cfg in
  let rows0 := if grid_rows cfg =? 0
               then Z.max 1 (work_h / (window_height cfg + v_gap cfg))
               else grid_rows cfg in
  let cols := Z.max cols0 ((count + rows0 - 1) / rows0) in
  exists fuel0, forall fuel, (fuel0 <= fuel)%nat ->
    plan_grid fuel count work_w work_h cfg
    = Some (Ok (mkGrid cols rows0 (map (cell cfg cols) (seqZ 0 count)))).
Proof.
  intros Hcount Hph Hpv Hrows. cbv zeta.
  set (cols0 := if grid_cols cfg =? 0 then _ else _).
  set (rows0 := if grid_rows cfg =? 0 then _ else _).
  assert (1 <= rows0) as Hr0.
  { unfold rows0. destruct (Z.eqb_spec (grid_rows cfg) 0); lia. }
  exists (Z.to_nat (count - cols0)). intros fuel Hfuel. unfold plan_grid.
  rewrite !auto_size_value by assumption. fold cols0 rows0.
  destruct (grow_cols_terminates fuel cols0 rows0 count) as (_ & c & Hc);
    [lia..|].
  rewrite Hc, (grow_cols_closed_form _ _ _ _ _ Hr0 Hc). reflexivity.
Qed.

Lemma plan_grid_columns_closed_form_witness :
  exists fuel0, forall fuel, (fuel0 <= fuel)%nat ->
    plan_grid fuel 7 1920 1040 (mkSettings 2 3 10 10 35 550 600)
    = Some (Ok (mkGrid 3 3
                  (map (cell (mkSettings 2 3 10 10 35 550 600) 3) (seqZ 0 7)))).
Proof.
  apply (plan_grid_columns_closed_form 7 1920 1040
           (mkSettings 2 3 10 10 35 550 600)); simpl; lia.
Defined.

(** X8: with an automatic grid (0x0), a work area that holds at least one
    cell pitch each way and no more windows than the automatic grid has
    cells, no column is added and every cell lies inside the work area. *)
Theorem auto_grid_fits_work_area (count work_w work_h : Z) (cfg : settings)
  (fuel : nat) :
  grid_cols cfg = 0 -> grid_rows cfg = 0 ->
  0 <= h_gap cfg -> 0 <= v_gap cfg ->
  0 < window_width cfg -> 0 < window_height cfg ->
  window_width cfg + h_gap cfg <= work_w ->
  window_height cfg + v_gap cfg <= work_h ->
  1 <= count ->
  count <= work_w / (window_width cfg + h_gap cfg)
           * (work_h / (window_height cfg + v_gap cfg)) ->
  exists g,
    plan_grid fuel count work_w work_h cfg = Some (Ok g)
    /\ columns g = work_w / (window_width cfg + h_gap cfg)
    /\ rows g = work_h / (window_height cfg + v_gap cfg)
    /\ forall x y cx cy, In (x, y, cx, cy) (cells g) ->
         0 <= x /\ x + cx <= work_w /\ 0 <= y /\ y + cy <= work_h.
Proof.
  intros Hc0 Hr0 Hh Hv Hw Hht Hfw Hfh Hcount Hfit.
  set (ph := window_width cfg + h_gap cfg) in *.
  set (pv := window_height cfg + v_gap cfg) in *.
  assert (1 <= work_w / ph) as HC by (apply Z.div_le_lower_bound; lia).
  assert (1 <= work_h / pv) as HR by (apply Z.div_le_lower_bound; lia).
  pose proof (Z.mul_div_le work_w ph ltac:(lia)) as HwC.
  pose proof (Z.mul_div_le work_h pv ltac:(lia)) as HhR.
  unfold plan_grid. fold ph pv.
  rewrite !auto_size_value by lia. rewrite Hc0, Hr0. simpl Z.eqb. cbv iota.
  rewrite !Z.max_r by lia. rewrite grow_cols_done by exact Hfit.
  eexists. split; [reflexivity|]. simpl. split; [reflexivity|].
  split; [reflexivity|].
  intros x y cx cy Hin. apply in_map_iff in Hin as (i & Hcell & Hi).
  apply list_elem_of_In, elem_of_seqZ in Hi.
  unfold cell in Hcell. cbv zeta in Hcell. fold ph pv in Hcell.
  injection Hcell as <- <- <- <-.
  pose proof (Z.mod_pos_bound i (work_w / ph) ltac:(lia)) as Hcol.
  assert (0 <= i / (work_w / ph)) as Hrow0 by (apply Z.div_pos; lia).
  assert (i / (work_w / ph) < work_h / pv) as Hrow
    by (apply Z.div_lt_upper_bound; lia).
  unfold ph, pv in *. nia.
Qed.

Lemma auto_grid_fits_work_area_witness :
  exists g,
    plan_grid 0 3 1920 1040 DEFAULT_SETTINGS = Some (Ok g)
    /\ columns g = 1920 / (550 + 10)
    /\ rows g = 1040 / (600 + 10)
    /\ forall x y cx cy, In (x, y, cx, cy) (cells g) ->
         0 <= x /\ x + cx <= 1920 /\ 0 <= y /\ y + cy <= 1040.
Proof.
  apply (auto_grid_fits_work_area 3 1920 1040 DEFAULT_SETTINGS 0);
    simpl; try reflexivity; try lia.
Defined.

(** X9: with an automatic dimension whose pitch (size plus gap) is zero,
    position raises the division error before any window is touched. *)
Theorem position_zero_pitch_raises (fuel : nat) (cfg : settings) (s : world) :
  get_profile_windows s <> [] ->
  (grid_cols cfg = 0 /\ window_width cfg + h_gap cfg = 0)
  \/ (grid_rows cfg = 0 /\ window_height cfg + v_gap cfg = 0) ->
  position_windows fuel cfg s
  = Some (Raise "integer division or modulo by zero", s).
Proof.
  intros Hne Hzero. unfold position_windows.
  destruct (get_profile_windows s) as [|w l]; [congruence|]. cbn [null].
  destruct (get_work_area s) as [work_w work_h]. unfold plan_grid.
  assert (forall n area, auto_size n area 0 = Ok n /\ n <> 0
                         \/ auto_size n area 0
                            = Raise "integer division or modulo by zero")
    as Hzero_pitch.
  { intros n area. unfold auto_size, floordiv.
    destruct (Z.eqb_spec n 0); [right; reflexivity | left; auto]. }
  destruct Hzero as [[Hc Hp]|[Hr Hp]].
  - rewrite Hp, Hc. reflexivity.
  - rewrite Hp.
    destruct (auto_size (grid_cols cfg) work_w _) as [cols|e] eqn:Hcols.
    + rewrite Hr. reflexivity.
    + unfold auto_size, floordiv in Hcols.
      destruct (grid_cols cfg =? 0); [|discriminate].
      destruct (_ =? 0); [|discriminate]. injection Hcols as <-. reflexivity.
Qed.

Lemma position_zero_pitch_raises_witness :
  position_windows 0 (mkSettings 0 0 (-550) 10 35 550 600) sample_world
  = Some (Raise "integer division or modulo by zero", sample_world).
Proof.
  apply (position_zero_pitch_raises 0 (mkSettings 0 0 (-550) 10 35 550 600)
           sample_world).
  - vm_compute. discriminate.
  - left. split; reflexivity.
Defined.

(** ** Where the windows end up *)











Lemma sample_cells_fit (c : Z * Z * Z * Z) :
  In c [(0, 0, 550, 600); (560, 0, 550, 600); (1120, 0, 550, 600);
        (1680, 0, 550, 600); (2240, 0, 550, 600)] ->
  fits_cell c.
Proof.
  intros H. repeat (destruct H as [<-|H]; [unfold fits_cell, fits_int; lia|]).
  destruct H.
Qed.








(** ** Sizes after resizing and positioning *)






(** ** Ties in the profile set *)

Lemma filter_map_comm {A B} (P : B -> Prop) `{forall x, Decision (P x)}
  (f : A -> B) (l : list A) :
  filter P (map f l) = map f (filter (fun x => P (f x)) l).
Proof.
  induction l as [|x l IH]; [reflexivity|]. simpl.
  rewrite !filter_cons, IH. destruct (decide (P (f x))); reflexivity.
Qed.

Lemma filter_ext_in {A} (P Q : A -> Prop) `{forall x, Decision (P x)}
  `{forall x, Decision (Q x)} (l : list A) :
  (forall x, In x l -> P x <-> Q x) -> filter P l = filter Q l.
Proof.
  induction l as [|x l IH]; intros Hpq; [reflexivity|].
  rewrite !filter_cons, IH by (intros y Hy; apply Hpq; right; exact Hy).
  destruct (decide (P x)) as [Hp|Hp], (decide (Q x)) as [Hq|Hq];
    try reflexivity; exfalso;
    [apply Hq | apply Hp]; apply (Hpq x (or_introl eq_refl)); assumption.
Qed.

(** X15: windows of the profile set with the same creation time (in
    particular those whose time cannot be read, which count as 0) keep the
    order in which [EnumWindows] passed them. *)
Theorem equal_creation_times_keep_enumeration_order (s : world) (k : Z) :
  handles (filter (fun w : Z * string => get_process_creation_time s w.1 = k)
                  (get_profile_windows s))
  = filter (fun hwnd => get_process_creation_time s hwnd = k)
           (filter (fun hwnd => is_profile_window s hwnd = true) (z_order s)).
Proof.
  unfold handles, get_profile_windows.
  rewrite filter_map_comm, map_map. simpl.
  rewrite (filter_ext_in _ (fun x : Z * string * Z => x.2 = k)).
  2:{ intros x Hx. destruct (profile_records_sound s x Hx) as (_ & _ & _ & ->).
      reflexivity. }
  unfold profile_records. rewrite sort_by_stable, filter_map_comm, map_map.
  simpl. rewrite map_id. reflexivity.
Qed.

(** ** The creation time *)

Lemma filetime_value (high low : Z) :
  0 <= high -> 0 <= low < 2 ^ 32 ->
  Z.lor (Z.shiftl high 32) low = high * 2 ^ 32 + low.
Proof.
  intros Hh Hl. rewrite Z.shiftl_mul_pow2 by lia.
  rewrite <- Z.lxor_lor, <- Z.add_nocarry_lxor; try reflexivity;
    apply Z.bits_inj'; intros n Hn; rewrite Z.land_spec, Z.bits_0;
    destruct (Z_lt_le_dec n 32) as [Hlow|Hhigh].
  - rewrite Z.mul_pow2_bits_low by lia. reflexivity.
  - destruct (Z.eq_dec low 0) as [->|Hne]; [rewrite Z.bits_0; apply andb_false_r|].
    rewrite (Z.bits_above_log2 low n), andb_false_r; [reflexivity | lia|].
    apply Z.lt_le_trans with 32; [|exact Hhigh]. apply Z.log2_lt_pow2; lia.
  - rewrite Z.mul_pow2_bits_low by lia. reflexivity.
  - destruct (Z.eq_dec low 0) as [->|Hne]; [rewrite Z.bits_0; apply andb_false_r|].
    rewrite (Z.bits_above_log2 low n), andb_false_r; [reflexivity | lia|].
    apply Z.lt_le_trans with 32; [|exact Hhigh]. apply Z.log2_lt_pow2; lia.
Qed.

(** X16: for a window whose process times can be read, with both halves
    of the FILETIME in the range of a DWORD, the creation time is
    high * 2^32 + low, a value below 2^64; two such times compare as the
    pairs (high, low) do. A window that is not on the desktop or whose
    times cannot be read has creation time 0. *)
Theorem creation_time_is_the_filetime (s : world) (hwnd : Z) :
  (forall w high low,
      desktop s !! hwnd = Some w -> w_creation w = Some (high, low) ->
      0 <= high < 2 ^ 32 -> 0 <= low < 2 ^ 32 ->
      get_process_creation_time s hwnd = high * 2 ^ 32 + low
      /\ 0 <= get_process_creation_time s hwnd < 2 ^ 64
      /\ forall hwnd' w' high' low',
           desktop s !! hwnd' = Some w' -> w_creation w' = Some (high', low') ->
           0 <= high' < 2 ^ 32 -> 0 <= low' < 2 ^ 32 ->
           (get_process_creation_time s hwnd <= get_process_creation_time s hwnd'
            <-> high < high' \/ (high = high' /\ low <= low')))
  /\ ((desktop s !! hwnd = None
       \/ exists w, desktop s !! hwnd = Some w /\ w_creation w = None) ->
      get_process_creation_time s hwnd = 0).
Proof.
  split.
  - intros w high low Hw Hc Hh Hl.
    assert (get_process_creation_time s hwnd = high * 2 ^ 32 + low) as Hval.
    { unfold get_process_creation_time. rewrite Hw, Hc.
      apply filetime_value; lia. }
    split; [exact Hval|]. split; [rewrite Hval; lia|].
    intros hwnd' w' high' low' Hw' Hc' Hh' Hl'. rewrite Hval.
    unfold get_process_creation_time. rewrite Hw', Hc'.
    rewrite filetime_value by lia. lia.
  - unfold get_process_creation_time.
    intros [->|(w & -> & ->)]; reflexivity.
Qed.

Lemma creation_time_is_the_filetime_witness :
  get_process_creation_time sample_world 11 = 0 * 2 ^ 32 + 3
  /\ 0 <= get_process_creation_time sample_world 11 < 2 ^ 64.
Proof.
  destruct (creation_time_is_the_filetime sample_world 11) as [H _].
  destruct (H (sample_window "US12 - page" "Chrome_WidgetWin_1" 3 100 200) 0 3)
    as (Hval & Hrange & _); [reflexivity | reflexivity | lia | lia |].
  split; [exact Hval | exact Hrange].
Defined.

(** ** The zoom table as thresholds *)

(** X17: the step count as a function of the requested percentage: 7 up
    to 28, 6 up to 42, 5 up to 58, 4 up to 70, 3 up to 77, 2 up to 84, 1 up
    to 94 and 0 from 95 on; percentages outside 25..100 are clamped to the
    ends of the table. *)
Theorem zoom_steps_by_threshold (zoom_percent : Z) :
  steps_for zoom_percent
  = Ok (if zoom_percent <=? 28 then 7%nat
        else if zoom_percent <=? 42 then 6%nat
        else if zoom_percent <=? 58 then 5%nat
        else if zoom_percent <=? 70 then 4%nat
        else if zoom_percent <=? 77 then 3%nat
        else if zoom_percent <=? 84 then 2%nat
        else if zoom_percent <=? 94 then 1%nat
        else 0%nat).
Proof.
  unfold steps_for, closest_zoom, zoom_steps. cbn [map fst py_min min_from].
  repeat match goal with
         | |- context [Z.abs (?a - zoom_percent) <? Z.abs (Z.pos ?b - zoom_percent)] =>
             destruct (Z.ltb_spec (Z.abs (a - zoom_percent))
                                  (Z.abs (Z.pos b - zoom_percent)));
             cbv iota; try (exfalso; lia)
         end;
    repeat match goal with
           | |- context [?a <=? ?b] => destruct (Z.leb_spec a b)
           end;
    try reflexivity; exfalso; lia.
Qed.

(** ** More on the classifier *)

Lemma contains_in_empty (needle : string) :
  needle <> "" -> PyStr.contains "" needle = false.
Proof. destruct needle; [congruence | reflexivity]. Qed.

(** X18: a visible window whose lower-cased title contains an inclusion
    keyword and no exclusion string is accepted, whatever its class name. *)
Theorem keyword_title_accepted (s : world) (hwnd : Z) (indicator : string) :
  IsWindowVisible s hwnd = true ->
  In indicator PROFILE_INDICATORS ->
  PyStr.contains (PyStr.lower (get_window_title s hwnd)) indicator = true ->
  (forall exclude, In exclude EXCLUDE_INDICATORS ->
     PyStr.contains (PyStr.lower (get_window_title s hwnd)) exclude = false) ->
  is_profile_window s hwnd = true.
Proof.
  intros Hvis Hin Hc Hexcl. unfold is_profile_window. cbv zeta.
  rewrite Hvis. simpl negb. cbv iota.
  assert (get_window_title s hwnd <> "") as Htitle.
  { intros E. rewrite E in Hc. simpl PyStr.lower in Hc.
    rewrite contains_in_empty in Hc; [discriminate|].
    destruct Hin as [<-|[<-|[<-|[]]]]; discriminate. }
  rewrite (truthy_nonempty _ Htitle). simpl negb. cbv iota.
  rewrite (existsb_all_false (fun e => PyStr.contains _ e) _ Hexcl).
  assert (existsb (fun i => PyStr.contains
                              (PyStr.lower (get_window_title s hwnd)) i)
                  PROFILE_INDICATORS = true) as ->; [|reflexivity].
  apply existsb_exists. exists indicator. auto.
Qed.

Lemma keyword_title_accepted_witness : is_profile_window sample_world 15 = true.
Proof.
  apply (keyword_title_accepted sample_world 15 "whoerip").
  - reflexivity.
  - left. reflexivity.
  - reflexivity.
  - intros e [<-|[<-|[]]]; reflexivity.
Defined.

(** ** The title pattern *)




Lemma append_nil_l (s : string) : ("" ++ s)%string = s.
Proof. reflexivity. Qed.

Lemma append_cons (c : ascii) (a b : string) :
  (String c a ++ b)%string = String c (a ++ b).
Proof. reflexivity. Qed.







(** ** The URL that is typed *)

Lemma lstrip_cases (s : string) :
  PyStr.lstrip s = ""
  \/ exists c t, PyStr.lstrip s = String c t /\ PyStr.is_space c = false.
Proof.
  induction s as [|c s IH]; simpl; [auto|].
  destruct (PyStr.is_space c) eqn:Hc; [exact IH | right; eauto].
Qed.

Lemma rstrip_cons (c : ascii) (s : string) :
  PyStr.rstrip (String c s)
  = match PyStr.rstrip s with
    | EmptyString => if PyStr.is_space c then EmptyString else String c EmptyString
    | r => String c r
    end.
Proof. reflexivity. Qed.

Lemma rstrip_idem (s : string) : PyStr.rstrip (PyStr.rstrip s) = PyStr.rstrip s.
Proof.
  induction s as [|c s IH]; [reflexivity|]. rewrite rstrip_cons.
  destruct (PyStr.rstrip s) as [|d r] eqn:E.
  - destruct (PyStr.is_space c) eqn:Hc; [reflexivity|].
    rewrite rstrip_cons. simpl PyStr.rstrip. rewrite Hc. reflexivity.
  - rewrite rstrip_cons, IH. reflexivity.
Qed.

Lemma lstrip_rstrip_lstrip (s : string) :
  PyStr.lstrip (PyStr.rstrip (PyStr.lstrip s)) = PyStr.rstrip (PyStr.lstrip s).
Proof.
  destruct (lstrip_cases s) as [->|(c & t & -> & Hc)]; [reflexivity|].
  rewrite rstrip_cons.
  destruct (PyStr.rstrip t); rewrite ?Hc; simpl; rewrite ?Hc; reflexivity.
Qed.

Lemma strip_idem (s : string) : PyStr.strip (PyStr.strip s) = PyStr.strip s.
Proof.
  unfold PyStr.strip. rewrite lstrip_rstrip_lstrip. apply rstrip_idem.
Qed.

Lemma rstrip_app_fixed (a v : string) :
  PyStr.rstrip a = a -> PyStr.rstrip v = v ->
  PyStr.rstrip (a ++ v) = (a ++ v)%string.
Proof.
  induction a as [|c a IH]; intros Ha Hv; [exact Hv|].
  rewrite append_cons, rstrip_cons. rewrite rstrip_cons in Ha.
  assert (PyStr.rstrip a = a) as Ha'.
  { destruct (PyStr.rstrip a) as [|d r] eqn:E.
    - destruct (PyStr.is_space c); [discriminate|]. congruence.
    - congruence. }
  rewrite (IH Ha' Hv). rewrite Ha' in Ha.
  destruct a as [|d a]; [|reflexivity].
  rewrite append_nil_l. destruct v as [|d v]; [exact Ha | reflexivity].
Qed.

Lemma prefix_app (p v : string) : String.prefix p (p ++ v) = true.
Proof.
  induction p as [|a p IH]; [destruct v; reflexivity|].
  rewrite append_cons. simpl. destruct (ascii_dec a a); [exact IH | congruence].
Qed.

(** X20: the URL that navigate types always starts with http:// or
    https://, has no white space at either end, and normalizing it again
    changes nothing. *)
Theorem normalize_url_scheme_and_fixpoint (url : string) :
  (PyStr.startswith (normalize_url url) "http://" = true
   \/ PyStr.startswith (normalize_url url) "https://" = true)
  /\ PyStr.strip (normalize_url url) = normalize_url url
  /\ normalize_url (normalize_url url) = normalize_url url.
Proof.
  assert (PyStr.startswith (normalize_url url) "http://" = true
          \/ PyStr.startswith (normalize_url url) "https://" = true) as Hscheme.
  { unfold normalize_url.
    destruct (PyStr.startswith (PyStr.strip url) "http://") eqn:E1; [auto|].
    destruct (PyStr.startswith (PyStr.strip url) "https://") eqn:E2; [auto|].
    right. simpl negb. cbn [andb]. apply prefix_app. }
  assert (PyStr.strip (normalize_url url) = normalize_url url) as Hstrip.
  { unfold normalize_url.
    destruct (negb _ && negb _); [|apply strip_idem].
    unfold PyStr.strip at 1.
    replace (PyStr.lstrip ("https://" ++ PyStr.strip url))
      with ("https://" ++ PyStr.strip url)%string by reflexivity.
    apply rstrip_app_fixed; [reflexivity|].
    unfold PyStr.strip. apply rstrip_idem. }
  split; [exact Hscheme|]. split; [exact Hstrip|].
  unfold normalize_url at 1. rewrite Hstrip.
  destruct Hscheme as [-> | ->]; simpl; rewrite ?andb_false_r; reflexivity.
Qed.

(** ** A failing call ends the sequence of its window *)

Lemma run_script_app (l1 l2 : list step) (s : world) :
  run_script (l1 ++ l2) s = (run_script l1 ;; run_script l2) s.
Proof.
  revert s. induction l1 as [|[c|ms] l1 IH]; intros s; simpl.
  - reflexivity.
  - unfold bind. destruct (foreign c s) as [[[]|e] s1]; [apply IH | reflexivity].
  - unfold bind, sleep. apply IH.
Qed.

Lemma repeat_n_script (n : nat) (s : world) :
  repeat_n n (foreign (press_and_release "ctrl+-") ;; sleep 80) s
  = run_script (concat (replicate n [Do (press_and_release "ctrl+-"); Wait 80])) s.
Proof.
  revert s. induction n as [|n IH]; intros s; [reflexivity|].
  simpl. unfold bind.
  destruct (foreign (press_and_release "ctrl+-") s) as [[[]|e] s1];
    [|reflexivity].
  unfold sleep, ret. apply IH.
Qed.

Lemma bind_ext {A B} (m : M A) (k1 k2 : A -> M B) (s : world) :
  (forall a s', k1 a s' = k2 a s') -> bind m k1 s = bind m k2 s.
Proof.
  intros H. unfold bind. destruct (m s) as [[a|e] s1]; [apply H | reflexivity].
Qed.

Lemma zoom_window_script (steps : nat) (hwnd : Z) (s : world) :
  zoom_window steps hwnd s = run_script (zoom_script steps hwnd) s.
Proof.
  unfold zoom_window, zoom_script. cbn [app run_script].
  repeat (apply bind_ext; intros ? ?). apply repeat_n_script.
Qed.

Lemma open_url_window_script (url : string) (hwnd : Z) (s : world) :
  open_url_window url hwnd s = run_script (open_url_script url hwnd) s.
Proof.
  unfold open_url_window, open_url_script. cbn [run_script].
  repeat (apply bind_ext; intros ? ?). unfold bind, sleep, ret. reflexivity.
Qed.

(** The trace of a script whose calls are passed as they are is an initial
    part of its events; it is the whole of them exactly when no call
    raised. *)
Lemma run_script_prefix (l : list step) (s : world) :
  (forall long64 c, In (Do c) l -> marshal long64 c = Ok c) ->
  exists n : nat,
    (n <= length l)%nat
    /\ trace (run_script l s).2 = trace s ++ map event_of (take n l)
    /\ ((run_script l s).1 = Ok tt <-> n = length l).
Proof.
  revert s. induction l as [|[c|ms] l IH]; intros s Hl; simpl run_script.
  - exists O. simpl. rewrite app_nil_r. repeat split; auto.
  - unfold bind, foreign. rewrite (Hl (long64 s) c (or_introl eq_refl)).
    destruct (if from_keyboard c then faults s (clock s) else None)
      as [e|] eqn:F.
    + exists O. simpl. rewrite app_nil_r. split; [lia|]. split; [reflexivity|].
      split; intros H; discriminate H.
    + destruct (IH (with_desktop (effect c (desktop s))
                      (record (Called c) (tick s)))) as (n & Hn & Ht & Hok);
        [intros b c' Hc'; apply Hl; right; exact Hc'|].
      exists (S n). split; [simpl; lia|]. split.
      * rewrite Ht. simpl. rewrite <- app_assoc. reflexivity.
      * rewrite Hok. simpl. split; intros; lia.
  - unfold bind, sleep.
    destruct (IH (record (Slept ms) s)) as (n & Hn & Ht & Hok);
      [intros b c' Hc'; apply Hl; right; exact Hc'|].
    exists (S n). split; [simpl; lia|]. split.
    + rewrite Ht. simpl. rewrite <- app_assoc. reflexivity.
    + rewrite Hok. simpl. split; intros; lia.
Qed.

Lemma zoom_script_plain (steps : nat) (hwnd : Z) (long64 : bool) (c : call) :
  In (Do c) (zoom_script steps hwnd) -> marshal long64 c = Ok c.
Proof.
  unfold zoom_script. intros H. apply in_app_or in H as [H|H].
  - repeat (destruct H as [H|H]; [injection H as <- || discriminate H; reflexivity|]).
    destruct H.
  - induction steps as [|n IH]; [destruct H|].
    simpl in H. destruct H as [[= <-]|[H|H]];
      [reflexivity | discriminate H | apply IH, H].
Qed.

Lemma open_url_script_plain (url : string) (hwnd : Z) (long64 : bool)
  (c : call) :
  In (Do c) (open_url_script url hwnd) -> marshal long64 c = Ok c.
Proof.
  unfold open_url_script. intros H.
  repeat (destruct H as [H|H]; [injection H as <- || discriminate H; reflexivity|]).
  destruct H.
Qed.

Lemma zoom_events_script (steps : nat) (hwnd : Z) :
  zoom_events steps hwnd = map event_of (zoom_script steps hwnd).
Proof.
  unfold zoom_events, zoom_script. rewrite map_app. f_equal.
  induction steps as [|n IH]; [reflexivity|]. simpl. rewrite IH. reflexivity.
Qed.

Lemma take_map {A B} (f : A -> B) (n : nat) (l : list A) :
  map f (take n l) = take n (map f l).
Proof.
  revert n. induction l as [|x l IH]; intros [|n]; simpl; try reflexivity.
  rewrite IH. reflexivity.
Qed.

(** X21: whatever calls raise, what zoom and navigate dispatch to one
    window is an initial part of the full sequence for that window, in
    order; the sequence is complete exactly when no call raised, and after
    a call that raised nothing more is sent to that window. *)
Theorem window_sequence_is_cut_at_failure (steps : nat) (url : string)
  (hwnd : Z) (s : world) :
  (exists n : nat,
      (n <= length (zoom_events steps hwnd))%nat
      /\ trace (zoom_window steps hwnd s).2
         = trace s ++ take n (zoom_events steps hwnd)
      /\ ((zoom_window steps hwnd s).1 = Ok tt
          <-> n = length (zoom_events steps hwnd)))
  /\ (exists n : nat,
        (n <= length (open_url_events url hwnd))%nat
        /\ trace (open_url_window url hwnd s).2
           = trace s ++ take n (open_url_events url hwnd)
        /\ ((open_url_window url hwnd s).1 = Ok tt
            <-> n = length (open_url_events url hwnd))).
Proof.
  split.
  - rewrite zoom_window_script, zoom_events_script, length_map.
    destruct (run_script_prefix (zoom_script steps hwnd) s
                (zoom_script_plain steps hwnd)) as (n & Hn & Ht & Hok).
    exists n. rewrite <- take_map. auto.
  - rewrite open_url_window_script.
    change (open_url_events url hwnd)
      with (map event_of (open_url_script url hwnd)).
    rewrite length_map.
    destruct (run_script_prefix (open_url_script url hwnd) s
                (open_url_script_plain url hwnd)) as (n & Hn & Ht & Hok).
    exists n. rewrite <- take_map. auto.
Qed.

Lemma position_windows_places_cells_witness :
  exists s',
    position_windows 2 DEFAULT_SETTINGS sample_world = Some (Ok 5, s')
    /\ trace s'
       = trace sample_world
         ++ concat (zip_with placement (get_profile_windows sample_world)
                      [(0, 0, 550, 600); (560, 0, 550, 600);
                       (1120, 0, 550, 600); (1680, 0, 550, 600);
                       (2240, 0, 550, 600)]).
Proof.
  apply (position_windows_places_cells 2 DEFAULT_SETTINGS sample_world
           (mkGrid 5 1 [(0, 0, 550, 600); (560, 0, 550, 600);
                        (1120, 0, 550, 600); (1680, 0, 550, 600);
                        (2240, 0, 550, 600)])).
  - rewrite sample_world_profile_set. discriminate.
  - vm_compute. reflexivity.
  - exact sample_cells_fit.
Defined.

(** ** Integers as text *)

Lemma digit_char_ok (d : Z) :
  0 <= d < 10 ->
  PyStr.is_digit (PyInt.digit_char d) = true
  /\ PyInt.digit_value (PyInt.digit_char d) = d.
Proof.
  intros H.
  assert (d = 0 \/ d = 1 \/ d = 2 \/ d = 3 \/ d = 4 \/ d = 5 \/ d = 6
          \/ d = 7 \/ d = 8 \/ d = 9) as Hd by lia.
  repeat destruct Hd as [->|Hd]; try subst d; split; reflexivity.
Qed.

Lemma digit_not_special (c : ascii) :
  PyStr.is_digit c = true ->
  PyInt.is_space c = false
  /\ (PyStr.code c =? 43)%N = false /\ (PyStr.code c =? 45)%N = false.
Proof.
  unfold PyStr.is_digit, PyInt.is_space, PyStr.between.
  intros H. apply andb_true_iff in H as [H1 H2].
  apply N.leb_le in H1, H2.
  repeat match goal with
         | |- context [(?a <=? ?b)%N] => destruct (N.leb_spec a b)
         | |- context [(?a =? ?b)%N] => destruct (N.eqb_spec a b)
         end; simpl; try lia; auto.
Qed.

Lemma value_app (acc : Z) (a b : string) :
  PyInt.value acc (a ++ b) = PyInt.value (PyInt.value acc a) b.
Proof.
  revert acc. induction a as [|c a IH]; intros acc; [reflexivity|].
  apply IH.
Qed.

Lemma all_chars_app (p : ascii -> bool) (a b : string) :
  all_chars p (a ++ b) = all_chars p a && all_chars p b.
Proof.
  induction a as [|c a IH]; [reflexivity|].
  change (all_chars p (String c a ++ b)) with (p c && all_chars p (a ++ b)).
  simpl. rewrite IH, andb_assoc. reflexivity.
Qed.

Lemma decimal_spec (fuel : nat) :
  forall n, 0 <= n < 2 ^ Z.of_nat (S fuel) ->
    PyInt.decimal (S fuel) n <> ""
    /\ all_chars PyStr.is_digit (PyInt.decimal (S fuel) n) = true
    /\ PyInt.value 0 (PyInt.decimal (S fuel) n) = n.
Proof.
  induction fuel as [|fuel IH]; intros n Hn;
    change (PyInt.decimal (S ?f) n)
      with (if n <? 10 then String (PyInt.digit_char n) EmptyString
            else (PyInt.decimal f (n / 10)
                  ++ String (PyInt.digit_char (n mod 10)) EmptyString)%string);
    destruct (Z.ltb_spec n 10) as [Hsmall|Hbig].
  - destruct (digit_char_ok n ltac:(lia)) as [Hd Hv].
    split; [discriminate|]. simpl. rewrite Hd, Hv. split; [reflexivity | lia].
  - simpl in Hn. lia.
  - destruct (digit_char_ok n ltac:(lia)) as [Hd Hv].
    split; [discriminate|]. simpl. rewrite Hd, Hv. split; [reflexivity | lia].
  - assert (0 <= n / 10 < 2 ^ Z.of_nat (S fuel)) as Hq.
    { split; [apply Z.div_pos; lia|].
      apply Z.div_lt_upper_bound; [lia|].
      rewrite (Nat2Z.inj_succ (S fuel)), Z.pow_succ_r in Hn by lia. lia. }
    destruct (IH _ Hq) as (Hne & Hall & Hval).
    destruct (digit_char_ok (n mod 10)) as [Hd Hv];
      [apply Z.mod_pos_bound; lia|].
    split; [destruct (PyInt.decimal (S fuel) (n / 10)); [congruence | discriminate]|].
    rewrite all_chars_app, value_app, Hall, Hval. simpl. rewrite Hd, Hv.
    split; [reflexivity|]. pose proof (Z.div_mod n 10). lia.
Qed.

Lemma digits_of_run (ds : string) :
  forall acc count,
    all_chars PyStr.is_digit ds = true ->
    PyInt.digits acc count ds
    = Some (PyInt.value acc ds, (count + String.length ds)%nat).
Proof.
  induction ds as [|c ds IH]; intros acc count Hall; simpl.
  - rewrite Nat.add_0_r. reflexivity.
  - simpl in Hall. apply andb_true_iff in Hall as [Hc Hall].
    rewrite Hc, (IH _ _ Hall). f_equal. f_equal. lia.
Qed.

Lemma int_of_digits (ds : string) :
  ds <> "" -> all_chars PyStr.is_digit ds = true ->
  (String.length ds <= PyInt.max_str_digits)%nat ->
  PyInt.int ds = Some (PyInt.value 0 ds)
  /\ PyInt.int (String "-" ds) = Some (- PyInt.value 0 ds).
Proof.
  intros Hne Hall Hlen. destruct ds as [|c ds]; [congruence|].
  pose proof Hall as Hall'. simpl in Hall'.
  apply andb_true_iff in Hall' as [Hc _].
  destruct (digit_not_special c Hc) as (Hsp & Hplus & Hminus).
  apply Nat.leb_le in Hlen.
  split; unfold PyInt.int; cbn [PyInt.skip_space].
  - rewrite Hsp, Hplus, Hminus, Hc, (digits_of_run _ 0 0%nat Hall).
    rewrite Nat.add_0_l, Hlen. f_equal; lia.
  - change (PyInt.is_space "-") with false. cbv iota.
    change (PyStr.code "-" =? 43)%N with false.
    change (PyStr.code "-" =? 45)%N with true. cbv iota.
    rewrite Hc, (digits_of_run _ 0 0%nat Hall).
    rewrite Nat.add_0_l, Hlen. f_equal; lia.
Qed.

(** X22: the text [str] gives for an integer is read back by [int] as
    that integer: an entry field filled from a setting and left alone
    converts to the same value. *)
Theorem int_of_str (n : Z) (text : string) :
  PyInt.str n = Ok text -> PyInt.int text = Some n.
Proof.
  unfold PyInt.str. cbv zeta. intros H.
  destruct (decimal_spec (Z.to_nat (Z.log2 (Z.abs n))) (Z.abs n))
    as (Hne & Hall & Hval).
  { split; [lia|]. rewrite Nat2Z.inj_succ, Z2Nat.id by apply Z.log2_nonneg.
    destruct (Z.eq_dec (Z.abs n) 0) as [->|Hpos]; [reflexivity|].
    apply Z.log2_spec. lia. }
  set (ds := PyInt.decimal (S (Z.to_nat (Z.log2 (Z.abs n)))) (Z.abs n)) in *.
  destruct (_ <=? _)%nat eqn:Hlen; [|discriminate].
  apply Nat.leb_le in Hlen.
  destruct (int_of_digits ds Hne Hall Hlen) as [Hpos Hneg].
  destruct (Z.ltb_spec n 0); injection H as <-.
  - rewrite Hneg, Hval. f_equal; lia.
  - rewrite Hpos, Hval. f_equal; lia.
Qed.

Lemma int_of_str_witness : PyInt.int "-560" = Some (-560).
Proof. apply (int_of_str (-560) "-560"). reflexivity. Defined.

(** ** Applying the entries *)



(** X24: [App.position_windows] does not look at the answer of
    [apply_settings]: with a columns entry that is an integer and a rows
    entry that is not, the windows are positioned all the same, with the
    new columns value and the old rows value, and the count is reported. *)
Theorem app_positions_after_a_bad_entry (fuel : nat) (a : App) (s s' : world)
  (cols n : Z) (text : string) :
  PyInt.int (cols_var a) = Some cols ->
  PyInt.int (rows_var a) = None ->
  position_windows fuel (set_grid_cols cols (app_settings a)) s
  = Some (Ok n, s') ->
  n <> 0 ->
  PyInt.str n = Ok text ->
  (apply_settings a).1 = false
  /\ app_position_windows fuel a s
     = Some (Ok tt,
             with_status ("Done! " ++ text ++ " windows positioned")%string
               (with_settings (set_grid_cols cols (app_settings a)) a),
             s').
Proof.
  intros Hcols Hrows Hrun Hn Htext.
  assert (apply_settings a
          = (false, with_settings (set_grid_cols cols (app_settings a)) a))
    as Happly.
  { unfold apply_settings. rewrite Hcols. cbn [rows_var with_settings].
    rewrite Hrows. reflexivity. }
  split; [rewrite Happly; reflexivity|].
  unfold app_position_windows. rewrite Happly. cbn [snd].
  cbn [app_settings with_status with_settings]. rewrite Hrun.
  destruct (Z.eqb_spec n 0); [congruence|]. rewrite Htext. reflexivity.
Qed.

Lemma app_positions_after_a_bad_entry_witness :
  exists s',
    app_position_windows 5
      (mkApp DEFAULT_SETTINGS "2" "" "10" "10" 35 "" []) sample_world
    = Some (Ok tt,
            mkApp (mkSettings 2 0 10 10 35 550 600) "2" "" "10" "10" 35
                  "Done! 5 windows positioned" [],
            s').
Proof.
  assert (exists s', position_windows 5 (mkSettings 2 0 10 10 35 550 600)
                       sample_world = Some (Ok 5, s')) as [s' Hrun]
    by (vm_compute; eexists; reflexivity).
  exists s'.
  apply (app_positions_after_a_bad_entry 5
           (mkApp DEFAULT_SETTINGS "2" "" "10" "10" 35 "" [])
           sample_world s' 2 5 "5"); try reflexivity; [exact Hrun | lia].
Defined.
